(** * Hit-or-Miss transform for tumor detection: a model of [main.py]

    The script is one procedure, [apply_hit_or_miss], that strings together
    calls into OpenCV, NumPy, Matplotlib and [os.path].  The development has
    three layers:

    - [Grid]: grayscale rasters as row-major lists of 8-bit samples;
    - [Cv2], [PosixPath]: the library primitives the script calls, with the
      semantics the libraries document for the argument values used here;
    - [Script]: the procedure itself, as a program in a state-and-exception
      monad over a store of array objects and an outside world (files that
      can be decoded, paths that can be created, standard output, figures). *)

From stdpp Require Import base numbers list strings.
From Stdlib Require Import ZArith Lia.

Local Open Scope Z_scope.

(** ** Rasters *)

Module Grid.

(** A NumPy array of dtype [uint8] and two dimensions: a list of rows. *)
Abbreviation image := (list (list Z)).

Definition pixel (g : image) (y x : nat) : option Z :=
  match g !! y with
  | Some row => row !! x
  | None => None
  end.

Definition height (g : image) : nat := length g.

Definition width (g : image) : nat :=
  match g with
  | [] => 0%nat
  | row :: _ => length row
  end.

(** [has_shape h w g]: [g] has [h] rows, each of [w] samples. *)
Definition has_shape (h w : nat) (g : image) : bool :=
  (length g =? h)%nat && forallb (λ row, (length row =? w)%nat) g.

(** Every sample is one of the two values of a binary mask. *)
Definition is_mask (g : image) : Prop :=
  ∀ y x v, pixel g y x = Some v → v = 0 ∨ v = 255.

(** The constant raster of [h] rows and [w] columns. *)
Definition full (h w : nat) (v : Z) : image := replicate h (replicate w v).

(** Pointwise map over a raster, and pointwise combination of two. *)
Definition map (f : Z → Z) (g : image) : image :=
  (λ row : list Z, f <$> row) <$> g.

Definition map2 (f : Z → Z → Z) (a b : image) : image :=
  zip_with (zip_with f) a b.

(** A raster given by a function of the cell, with the layout of [g]. *)
Definition tabulate_like (g : image) (f : nat → nat → Z) : image :=
  imap (λ y row, imap (λ x _, f y x) row) g.

End Grid.

Import Grid.

(** ** The OpenCV and NumPy primitives *)

Module Cv2.

(** [cv2.threshold(src, thresh, maxval, cv2.THRESH_BINARY)]: a sample
    strictly above [thresh] becomes [maxval], any other becomes 0; the
    call returns the threshold used together with the new array. *)
Definition threshold_binary (src : image) (thresh maxval : Z) : Z * image :=
  (thresh, Grid.map (λ v, if thresh <? v then maxval else 0) src).

(** Half-width of the ellipse on the row at signed distance [dy] from the
    centre row: the library rounds [c * sqrt ((r*r - dy*dy) / (r*r))] to
    the nearest integer.  [(Z.sqrt (4*q) + 1) / 2] is the nearest integer
    to the square root of a rational [q] whenever that root is not half
    way between two integers, which it never is when [c = r]. *)
Definition ellipse_dx (c r dy : Z) : Z :=
  if r =? 0 then 0
  else (Z.sqrt (4 * (c * c) * (r * r - dy * dy) / (r * r)) + 1) / 2.

(** One row of [cv2.getStructuringElement(cv2.MORPH_ELLIPSE, (w, h))]:
    ones on the columns [j1 <= j < j2], zeros elsewhere. *)
Definition ellipse_row (w h i : Z) : list Z :=
  let r := h / 2 in
  let c := w / 2 in
  let dy := i - r in
  let '(j1, j2) :=
    if Z.abs dy <=? r then
      let dx := ellipse_dx c r dy in
      (Z.max (c - dx) 0, Z.min (c + dx + 1) w)
    else (0, 0) in
  (λ j, if (j1 <=? j) && (j <? j2) then 1 else 0) <$> seqZ 0 w.

Definition getStructuringElement_ellipse (ksize : Z * Z) : image :=
  let '(w, h) := ksize in
  (λ i, ellipse_row w h i) <$> seqZ 0 h.

(** NumPy's [a[r0:r1, c0:c1] = v] for non-negative bounds: the cells of
    the block that exist take the value [v]; a slice that runs past the
    array is clipped. *)
Definition setitem_block (a : image) (r0 r1 c0 c1 : nat) (v : Z) : image :=
  imap (λ i row,
          if (r0 <=? i)%nat && (i <? r1)%nat
          then imap (λ j old,
                       if (c0 <=? j)%nat && (j <? c1)%nat then v else old) row
          else row) a.

(** The sample erosion reads at a signed position: outside the array the
    default border of [cv2.erode] is a constant that never lowers a
    minimum, which for 8-bit data is 255. *)
Definition at_or_border (src : image) (y x : Z) : Z :=
  if (0 <=? y) && (0 <=? x)
  then default 255 (pixel src (Z.to_nat y) (Z.to_nat x))
  else 255.

(** Cells of the kernel that are not zero, as (row, column) pairs. *)
Definition kernel_support (kernel : image) : list (nat * nat) :=
  mjoin
    (imap (λ i krow,
             omap (λ p : nat * Z, if p.2 =? 0 then None else Some (i, p.1))
                  (imap (λ j kv, (j, kv)) krow))
          kernel).

(** The samples under the kernel when its anchor sits on cell (y, x). *)
Definition neighbourhood (src kernel : image) (ay ax : Z) (y x : nat)
  : list Z :=
  (λ ij : nat * nat,
     at_or_border src (Z.of_nat y + Z.of_nat ij.1 - ay)
                      (Z.of_nat x + Z.of_nat ij.2 - ax))
    <$> kernel_support kernel.

Definition erode_at (src kernel : image) (ay ax : Z) (y x : nat) : Z :=
  foldr Z.min 255 (neighbourhood src kernel ay ax y x).

(** [cv2.erode(src, kernel, iterations=1)] with the default anchor (the
    kernel centre, [ksize / 2] on each axis) and the default border. *)
Definition erode (src kernel : image) : image :=
  let ay := Z.of_nat (height kernel) / 2 in
  let ax := Z.of_nat (width kernel) / 2 in
  tabulate_like src (erode_at src kernel ay ax).

(** [cv2.bitwise_not] on 8-bit samples: every bit flipped, 8 bits kept. *)
Definition bitwise_not (src : image) : image :=
  Grid.map (λ v, Z.land (Z.lnot v) 255) src.

(** [cv2.bitwise_and] on two arrays of one shape (the library refuses
    arrays of different shapes, see [Script.bitwise_and]). *)
Definition bitwise_and (a b : image) : image := Grid.map2 Z.land a b.

End Cv2.

(** ** [os.path] on POSIX *)

Module PosixPath.

Local Open Scope string_scope.

Definition slash : Ascii.ascii := Ascii.ascii_of_nat 47.

(** The text after the last ["/"] of [p], when [p] has one. *)
Fixpoint after_last_slash (p : string) : option string :=
  match p with
  | EmptyString => None
  | String c rest =>
      match after_last_slash rest with
      | Some t => Some t
      | None => if Ascii.eqb c slash then Some rest else None
      end
  end.

(** [os.path.basename(p)]: [p[p.rfind('/') + 1:]]. *)
Definition basename (p : string) : string :=
  default p (after_last_slash p).

Definition starts_with_slash (p : string) : bool :=
  match p with
  | String c _ => Ascii.eqb c slash
  | EmptyString => false
  end.

Fixpoint ends_with_slash (p : string) : bool :=
  match p with
  | EmptyString => false
  | String c EmptyString => Ascii.eqb c slash
  | String _ rest => ends_with_slash rest
  end.

(** [os.path.join(a, b)]. *)
Definition join (a b : string) : string :=
  if starts_with_slash b then b
  else if String.eqb a "" || ends_with_slash a then a +:+ b
  else a +:+ "/" +:+ b.

End PosixPath.

(** ** The script *)

Module Script.

Local Open Scope string_scope.

(** *** Store, world and monad *)

(** A reference to an array object: its index in the store. *)
Definition ref : Type := nat.

(** What happens to array objects: creation with a first value, and
    writes into an object that already exists. *)
Inductive store_event : Type :=
| Alloc (r : ref) (v : image)
| Store (r : ref) (old new : image).

(** One [plt.subplot] of a figure and what was drawn into it. *)
Record axes : Type := MkAxes {
  grid_slot : nat * nat * nat;
  picture : option (image * string);
  caption : option string;
  xticks : option (list Z);
  yticks : option (list Z)
}.

Record figure : Type := MkFigure {
  figsize : Z * Z;
  subplots : list axes;
  suptitle : option (string * Z)
}.

(** What [plt.show()] does with the current figure, which depends on the
    Matplotlib backend in use: a non-interactive backend (Agg) displays
    nothing and returns at once, leaving the figure open; a displaying
    backend in the default blocking mode returns once the window is closed,
    which destroys the figure; in interactive mode the figure is displayed
    and stays open. *)
Inductive show_mode : Type :=
| NonInteractive
| Blocking
| NonBlocking.

Definition displays (mode : show_mode) : bool :=
  match mode with
  | NonInteractive => false
  | Blocking | NonBlocking => true
  end.

Definition closes (mode : show_mode) : bool :=
  match mode with
  | Blocking => true
  | NonInteractive | NonBlocking => false
  end.

(** The world outside the process.  [decode p] is the grayscale raster
    [cv2.imread] obtains from path [p], or [None] when the file is
    missing, corrupt or of an unsupported format.  [can_create p] tells
    whether a file can be created at [p], which needs the directory part
    of [p] to exist.  [has_encoder p] tells whether the library has an
    image writer for the extension of [p].  [backend] is the behaviour of
    [plt.show()] in this environment. *)
Record world : Type := MkWorld {
  decode : string → option image;
  can_create : string → bool;
  has_encoder : string → bool;
  backend : show_mode;
  written : list (string * image);
  stdout : list string;
  shown : list figure
}.

Record state : Type := MkState {
  heap : list image;
  events : list store_event;
  current_figure : option figure;
  env : world
}.

(** The interpreter at the start of the script. *)
Definition boot (w : world) : state :=
  {| heap := []; events := []; current_figure := None; env := w |}.

Inductive outcome (A : Type) : Type :=
| Returned (a : A)
| Raised (err : string).
Arguments Returned {A} a.
Arguments Raised {A} err.

Definition M (A : Type) : Type := state → outcome A * state.

Definition ret {A} (a : A) : M A := λ s, (Returned a, s).

Definition bind {A B} (m : M A) (k : A → M B) : M B :=
  λ s, match m s with
       | (Returned a, s') => k a s'
       | (Raised e, s') => (Raised e, s')
       end.

Definition raise {A} (e : string) : M A := λ s, (Raised e, s).

Notation "x <- m ;; k" := (bind m (λ x, k))
  (at level 60, m at next level, right associativity).
Notation "m ;;; k" := (bind m (λ _, k))
  (at level 60, right associativity).

Definition with_env (f : world → world) : M unit :=
  λ s, (Returned tt,
        {| heap := heap s; events := events s;
           current_figure := current_figure s; env := f (env s) |}).

Definition ask {A} (f : world → A) : M A :=
  λ s, (Returned (f (env s)), s).

(** [print(line)]. *)
Definition print (line : string) : M unit :=
  with_env (λ w, {| decode := decode w; can_create := can_create w;
                    has_encoder := has_encoder w; backend := backend w;
                    written := written w; stdout := stdout w ++ [line];
                    shown := shown w |}).

(** A library call that returns a new array. *)
Definition alloc (v : image) : M ref :=
  λ s, (Returned (length (heap s)),
        {| heap := heap s ++ [v];
           events := events s ++ [Alloc (length (heap s)) v];
           current_figure := current_figure s; env := env s |}).

Definition load (r : ref) : M image :=
  λ s, match heap s !! r with
       | Some v => (Returned v, s)
       | None => (Raised "dangling reference", s)
       end.

(** A write into the array object [r]: every name bound to [r] sees it. *)
Definition store (r : ref) (new : image) : M unit :=
  λ s, match heap s !! r with
       | Some old =>
           (Returned tt,
            {| heap := <[r := new]> (heap s);
               events := events s ++ [Store r old new];
               current_figure := current_figure s; env := env s |})
       | None => (Raised "dangling reference", s)
       end.

(** *** The library calls of the script *)

(** [cv2.imread(path, cv2.IMREAD_GRAYSCALE)]: [None] when the image
    cannot be read, a new array otherwise. *)
Definition imread (path : string) : M (option ref) :=
  decoded <- ask (λ w, decode w path) ;;
  match decoded with
  | None => ret None
  | Some img => r <- alloc img ;; ret (Some r)
  end.

Definition threshold (src : ref) (thresh maxval : Z) : M (Z * ref) :=
  a <- load src ;;
  let result := Cv2.threshold_binary a thresh maxval in
  dst <- alloc result.2 ;;
  ret (result.1, dst).

Inductive morph_shape : Type := MORPH_ELLIPSE.

Definition getStructuringElement (shape : morph_shape) (ksize : Z * Z)
  : M ref :=
  match shape with
  | MORPH_ELLIPSE => alloc (Cv2.getStructuringElement_ellipse ksize)
  end.

(** [a[r0:r1, c0:c1] = v], in place. *)
Definition setitem (a : ref) (rs cs : nat * nat) (v : Z) : M unit :=
  old <- load a ;;
  store a (Cv2.setitem_block old rs.1 rs.2 cs.1 cs.2 v).

Definition erode (src kernel : ref) : M ref :=
  a <- load src ;;
  k <- load kernel ;;
  alloc (Cv2.erode a k).

Definition bitwise_not (src : ref) : M ref :=
  a <- load src ;;
  alloc (Cv2.bitwise_not a).

(** Two arrays have one shape when their rows have the same lengths. *)
Definition same_shape (a b : image) : bool :=
  bool_decide (length <$> a = length <$> b).

Definition bitwise_and (src1 src2 : ref) : M ref :=
  a <- load src1 ;;
  b <- load src2 ;;
  if same_shape a b then alloc (Cv2.bitwise_and a b)
  else raise "cv2.error: sizes of input arguments do not match".

(** The message of the error [cv2.imwrite] raises without a writer. *)
Definition no_writer : string :=
  "cv2.error: could not find a writer for the specified extension".

(** [cv2.imwrite(path, img)]: the library first looks for a writer by the
    extension of the path and raises [cv2.error] when it has none, before
    it opens any file; with a writer, the file is created and [True]
    returned, or nothing is created and [False] returned. *)
Definition imwrite (path : string) (img : ref) : M bool :=
  a <- load img ;;
  encoder <- ask (λ w, has_encoder w path) ;;
  if encoder : bool
  then
    ok <- ask (λ w, can_create w path) ;;
    if ok : bool
    then with_env (λ w, {| decode := decode w; can_create := can_create w;
                           has_encoder := has_encoder w;
                           backend := backend w;
                           written := written w ++ [(path, a)];
                           stdout := stdout w; shown := shown w |}) ;;;
         ret true
    else ret false
  else raise no_writer.

(** *** Matplotlib's [pyplot] *)

Definition set_figure (f : option figure) : M unit :=
  λ s, (Returned tt,
        {| heap := heap s; events := events s;
           current_figure := f; env := env s |}).

Definition plt_figure (size : Z * Z) : M unit :=
  set_figure (Some {| figsize := size; subplots := []; suptitle := None |}).

(** The operations below act on the current figure and its latest axes. *)
Definition on_figure (f : figure → figure) : M unit :=
  λ s, match current_figure s with
       | Some fig => set_figure (Some (f fig)) s
       | None => (Raised "no current figure", s)
       end.

Definition on_axes (f : axes → axes) : M unit :=
  on_figure (λ fig,
    {| figsize := figsize fig;
       subplots := match reverse (subplots fig) with
                   | last :: before => reverse before ++ [f last]
                   | [] => []
                   end;
       suptitle := suptitle fig |}).

Definition plt_subplot (nrows ncols index : nat) : M unit :=
  on_figure (λ fig,
    {| figsize := figsize fig;
       subplots := subplots fig ++
         [{| grid_slot := (nrows, ncols, index); picture := None;
             caption := None; xticks := None; yticks := None |}];
       suptitle := suptitle fig |}).

Definition plt_imshow (img : ref) (cmap : string) : M unit :=
  a <- load img ;;
  on_axes (λ ax, {| grid_slot := grid_slot ax; picture := Some (a, cmap);
                    caption := caption ax; xticks := xticks ax;
                    yticks := yticks ax |}).

Definition plt_title (t : string) : M unit :=
  on_axes (λ ax, {| grid_slot := grid_slot ax; picture := picture ax;
                    caption := Some t; xticks := xticks ax;
                    yticks := yticks ax |}).

Definition plt_xticks (ticks : list Z) : M unit :=
  on_axes (λ ax, {| grid_slot := grid_slot ax; picture := picture ax;
                    caption := caption ax; xticks := Some ticks;
                    yticks := yticks ax |}).

Definition plt_yticks (ticks : list Z) : M unit :=
  on_axes (λ ax, {| grid_slot := grid_slot ax; picture := picture ax;
                    caption := caption ax; xticks := xticks ax;
                    yticks := Some ticks |}).

Definition plt_suptitle (t : string) (fontsize : Z) : M unit :=
  on_figure (λ fig, {| figsize := figsize fig; subplots := subplots fig;
                       suptitle := Some (t, fontsize) |}).

(** [plt.show()]: the current figure is displayed when the backend
    displays figures, and is closed when the backend blocks until its
    window is closed; see [show_mode]. *)
Definition plt_show : M unit :=
  λ s, match current_figure s with
       | Some fig =>
           bind (with_env (λ w, {| decode := decode w;
                                   can_create := can_create w;
                                   has_encoder := has_encoder w;
                                   backend := backend w;
                                   written := written w; stdout := stdout w;
                                   shown := if displays (backend w)
                                            then shown w ++ [fig]
                                            else shown w |}))
                (λ _, if closes (backend (env s))
                      then set_figure None else ret tt) s
       | None => (Returned tt, s)
       end.

(** [for i in range(len(xs)): body i]. *)
Fixpoint for_range (i : nat) (count : nat) (body : nat → M unit) : M unit :=
  match count with
  | O => ret tt
  | S count' => body i ;;; for_range (S i) count' body
  end.

(** [xs[i]] on a Python list. *)
Definition getitem {A} (xs : list A) (i : nat) : M A :=
  match xs !! i with
  | Some x => ret x
  | None => raise "IndexError: list index out of range"
  end.

(** *** [apply_hit_or_miss] *)

(** The escape [\n] of a Python string literal. *)
Definition newline : string := String (Ascii.ascii_of_nat 10) "".

Definition output_path_of (image_path output_dir : string) : string :=
  PosixPath.join output_dir ("result_" +:+ PosixPath.basename image_path).

Definition apply_hit_or_miss (image_path output_dir : string) : M unit :=
  print ("Processing image: " +:+ image_path) ;;;
  loaded <- imread image_path ;;
  match loaded with
  | None =>
      print ("Error: Could not load image at " +:+ image_path)
  | Some image_gray =>
      tb <- threshold image_gray 150 255 ;;
      let binary_image := tb.2 in
      hit_kernel <- getStructuringElement MORPH_ELLIPSE (20, 20) ;;
      miss_kernel <- getStructuringElement MORPH_ELLIPSE (40, 40) ;;
      setitem miss_kernel (10, 30)%nat (10, 30)%nat 0 ;;;
      erosion_hit <- erode binary_image hit_kernel ;;
      complement_image <- bitwise_not binary_image ;;
      erosion_miss <- erode complement_image miss_kernel ;;
      hit_or_miss_result <- bitwise_and erosion_hit erosion_miss ;;
      let base_filename := PosixPath.basename image_path in
      let titles := ["Original"; "Structured element"; "Image after Erosion"] in
      let images := [image_gray; binary_image; erosion_miss] in
      plt_figure (20, 5) ;;;
      for_range 0 (length images) (λ i,
        plt_subplot 1 5 (i + 1) ;;;
        img <- getitem images i ;;
        plt_imshow img "gray" ;;;
        t <- getitem titles i ;;
        plt_title t ;;;
        plt_xticks [] ;;;
        plt_yticks []) ;;;
      plt_suptitle ("Hit-or-Miss Transform for: " +:+ base_filename) 16 ;;;
      plt_show ;;;
      let output_path :=
        PosixPath.join output_dir ("result_" +:+ base_filename) in
      _ <- imwrite output_path hit_or_miss_result ;;
      print ("Result saved to: " +:+ output_path +:+ newline)
  end.

(** *** The arrays of a run, as functions of the loaded raster *)

Definition binary_image (image_gray : image) : image :=
  (Cv2.threshold_binary image_gray 150 255).2.

Definition hit_kernel : image := Cv2.getStructuringElement_ellipse (20, 20).

(** The 40 x 40 ellipse as the library returns it, before the carve-out. *)
Definition miss_ellipse : image :=
  Cv2.getStructuringElement_ellipse (40, 40).

Definition miss_kernel : image :=
  Cv2.setitem_block miss_ellipse 10 30 10 30 0.

Definition erosion_hit (image_gray : image) : image :=
  Cv2.erode (binary_image image_gray) hit_kernel.

Definition complement_image (image_gray : image) : image :=
  Cv2.bitwise_not (binary_image image_gray).

Definition erosion_miss (image_gray : image) : image :=
  Cv2.erode (complement_image image_gray) miss_kernel.

Definition hit_or_miss_result (image_gray : image) : image :=
  Cv2.bitwise_and (erosion_hit image_gray) (erosion_miss image_gray).

(** *** The visible effects of a run that loaded its raster *)

Definition panel (index : nat) (a : image) (title : string) : axes :=
  {| grid_slot := (1, 5, index)%nat; picture := Some (a, "gray");
     caption := Some title; xticks := Some []; yticks := Some [] |}.

Definition figure_of (image_path : string) (image_gray : image) : figure :=
  {| figsize := (20, 5);
     subplots := [panel 1 image_gray "Original";
                  panel 2 (binary_image image_gray) "Structured element";
                  panel 3 (erosion_miss image_gray) "Image after Erosion"];
     suptitle := Some ("Hit-or-Miss Transform for: "
                         +:+ PosixPath.basename image_path, 16) |}.

Definition heap_of (image_gray : image) : list image :=
  [image_gray; binary_image image_gray; hit_kernel; miss_kernel;
   erosion_hit image_gray; complement_image image_gray;
   erosion_miss image_gray; hit_or_miss_result image_gray].

Definition events_of (image_gray : image) : list store_event :=
  [Alloc 0%nat image_gray;
   Alloc 1%nat (binary_image image_gray);
   Alloc 2%nat hit_kernel;
   Alloc 3%nat miss_ellipse;
   Store 3%nat miss_ellipse miss_kernel;
   Alloc 4%nat (erosion_hit image_gray);
   Alloc 5%nat (complement_image image_gray);
   Alloc 6%nat (erosion_miss image_gray);
   Alloc 7%nat (hit_or_miss_result image_gray)].

(** No event overwrites an array with a different value. *)
Definition never_mutated (evs : list store_event) : bool :=
  forallb (λ e, match e with
                | Alloc _ _ => true
                | Store _ old new => bool_decide (old = new)
                end) evs.

(** The references written in place by a list of events. *)
Definition stores (evs : list store_event) : list ref :=
  omap (λ e, match e with Store r _ _ => Some r | Alloc _ _ => None end) evs.

(** The value each array was created with. *)
Definition created (evs : list store_event) : list (ref * image) :=
  omap (λ e, match e with Alloc r v => Some (r, v) | Store _ _ _ => None end)
       evs.

(** *** The entry point and two small worlds to run it in *)

Definition imagepath : string := "Tr-me_0019.jpg".
Definition result_dir : string := "results".

Definition main : M unit := apply_hit_or_miss imagepath result_dir.

Definition sample_raster : image := [[200; 150]; [0; 151]].

(** A world in which the scan decodes to [sample_raster] when [present],
    and files can be created under [result_dir] when [dir_exists]; the
    library can write every extension and figures are shown in blocking
    windows. *)
Definition sample_world (present dir_exists : bool) : world :=
  {| decode := λ p, if present && String.eqb p imagepath
                    then Some sample_raster else None;
     can_create := λ p, dir_exists;
     has_encoder := λ p, true;
     backend := Blocking;
     written := []; stdout := []; shown := [] |}.

(** A world with one scan, stored under a name whose extension the library
    cannot write, no [result_dir] to write into, and a backend that
    displays nothing. *)
Definition odd_extension_world : world :=
  {| decode := λ p, if String.eqb p "scan.xyz"
                    then Some sample_raster else None;
     can_create := λ p, false;
     has_encoder := λ p, false;
     backend := NonInteractive;
     written := []; stdout := []; shown := [] |}.

End Script.

(** ** Vocabulary for stating what the script computes *)

(** The sample of [src] at a signed position, when the position lies
    inside the raster. *)
Definition sample_at (src : image) (y x : Z) : option Z :=
  if (0 <=? y) && (0 <=? x)
  then pixel src (Z.to_nat y) (Z.to_nat x)
  else None.

(** The cells that [miss_kernel[10:30, 10:30] = 0] names. *)
Definition in_carved_block (i j : nat) : bool :=
  ((10 <=? i)%nat && (i <? 30)%nat) && ((10 <=? j)%nat && (j <? 30)%nat).

(** Whether a path contains the separator ["/"]. *)
Fixpoint has_slash (p : string) : bool :=
  match p with
  | EmptyString => false
  | String c rest => Ascii.eqb c PosixPath.slash || has_slash rest
  end.

(** * Facts about rasters *)

Section GridFacts.

Implicit Types (g a b : image) (f : Z → Z) (y x h w : nat).

Lemma pixel_map f g y x : pixel (Grid.map f g) y x = f <$> pixel g y x.
Proof.
  unfold pixel, Grid.map. rewrite list_lookup_fmap.
  destruct (g !! y) as [row|]; simpl; [apply list_lookup_fmap | done].
Qed.

Lemma pixel_tabulate_like g (k : nat → nat → Z) y x :
  pixel (tabulate_like g k) y x = (λ _, k y x) <$> pixel g y x.
Proof.
  unfold pixel, tabulate_like. rewrite list_lookup_imap.
  destruct (g !! y) as [row|]; simpl; [apply list_lookup_imap | done].
Qed.

Lemma pixel_map2 (k : Z → Z → Z) a b y x :
  pixel (Grid.map2 k a b) y x =
    match pixel a y x, pixel b y x with
    | Some u, Some v => Some (k u v)
    | _, _ => None
    end.
Proof.
  unfold pixel, Grid.map2. rewrite lookup_zip_with.
  destruct (a !! y) as [ra|]; simpl; [|done].
  destruct (b !! y) as [rb|]; simpl.
  - rewrite lookup_zip_with.
    destruct (ra !! x); simpl; [|done]. by destruct (rb !! x).
  - by destruct (ra !! x).
Qed.

Lemma pixel_full h w v y x :
  pixel (full h w v) y x =
    if decide (y < h ∧ x < w)%nat then Some v else None.
Proof.
  unfold pixel, full. case_decide as Hin.
  - destruct Hin. rewrite lookup_replicate_2 by done.
    by apply lookup_replicate_2.
  - destruct (decide (y < h)%nat).
    + rewrite lookup_replicate_2 by done.
      apply lookup_replicate_None. lia.
    + replace (replicate h (replicate w v) !! y) with (@None (list Z)); [done|].
      symmetry. apply lookup_replicate_None. lia.
Qed.

(** Two rasters with the same cells are the same raster, provided their
    rows have the same lengths (an empty row has no cell to compare). *)
Lemma image_eq a b :
  length <$> a = length <$> b →
  (∀ y x, pixel a y x = pixel b y x) → a = b.
Proof.
  intros Hlen Hpix. apply list_eq. intros y.
  assert (Hy : (length <$> a) !! y = (length <$> b) !! y) by by rewrite Hlen.
  rewrite !list_lookup_fmap in Hy. specialize (Hpix y). unfold pixel in Hpix.
  destruct (a !! y) as [ra|], (b !! y) as [rb|]; simpl in *; try done.
  f_equal. apply list_eq, Hpix.
Qed.

Lemma row_lengths_map f g : length <$> Grid.map f g = length <$> g.
Proof.
  apply list_eq. intros y. unfold Grid.map. rewrite !list_lookup_fmap.
  destruct (g !! y); simpl; [f_equal; apply length_fmap | done].
Qed.

Lemma row_lengths_tabulate_like g (k : nat → nat → Z) :
  length <$> tabulate_like g k = length <$> g.
Proof.
  apply list_eq. intros y. rewrite !list_lookup_fmap.
  unfold tabulate_like. rewrite list_lookup_imap.
  destruct (g !! y); simpl; [f_equal; apply length_imap | done].
Qed.

Lemma row_lengths_map2 (k : Z → Z → Z) a b :
  length <$> a = length <$> b → length <$> Grid.map2 k a b = length <$> a.
Proof.
  intros Hlen. apply list_eq. intros y.
  assert (Hy : (length <$> a) !! y = (length <$> b) !! y) by by rewrite Hlen.
  unfold Grid.map2. rewrite !list_lookup_fmap in *. rewrite lookup_zip_with.
  destruct (a !! y) as [ra|], (b !! y) as [rb|]; simpl in *; try done.
  f_equal. rewrite length_zip_with. injection Hy as Hy. lia.
Qed.

Lemma has_shape_row_lengths h w g :
  has_shape h w g = true ↔ length <$> g = replicate h w.
Proof.
  unfold has_shape. revert h. induction g as [|row g IH]; intros h; simpl.
  - destruct h; simpl; split; (done || intros; done).
  - destruct h as [|h]; simpl; [split; done|].
    rewrite andb_true_iff, andb_true_iff.
    specialize (IH h). rewrite andb_true_iff in IH. split.
    + intros [Hh [Hrow Hall]]. apply Nat.eqb_eq in Hrow. f_equal; [done|].
      apply IH. by split.
    + intros [= Hrow Hg]. apply IH in Hg as [? ?].
      split; [done|]. split; [by apply Nat.eqb_eq | done].
Qed.

Lemma has_shape_same h w a b :
  length <$> a = length <$> b →
  has_shape h w b = true → has_shape h w a = true.
Proof.
  intros Hlen. rewrite !has_shape_row_lengths. by rewrite Hlen.
Qed.

Lemma row_lengths_full h w v : length <$> full h w v = replicate h w.
Proof. unfold full. by rewrite fmap_replicate, length_replicate. Qed.

Lemma has_shape_full h w v : has_shape h w (full h w v) = true.
Proof. apply has_shape_row_lengths, row_lengths_full. Qed.

Lemma has_shape_pixel h w g y x :
  has_shape h w g = true → (y < h)%nat → (x < w)%nat →
  is_Some (pixel g y x).
Proof.
  intros Hg%has_shape_row_lengths Hy Hx.
  assert (Hrow : (length <$> g) !! y = Some w)
    by (rewrite Hg; by apply lookup_replicate_2).
  rewrite list_lookup_fmap in Hrow. unfold pixel.
  destruct (g !! y) as [row|]; simpl in Hrow; [|done].
  injection Hrow as Hrow. apply lookup_lt_is_Some_2. lia.
Qed.

Lemma is_mask_full h w v : v = 0 ∨ v = 255 → is_mask (full h w v).
Proof.
  intros Hv y x u. rewrite pixel_full. case_decide; [|done]. by intros [= <-].
Qed.

Lemma is_mask_map f g :
  (∀ v, f v = 0 ∨ f v = 255) → is_mask (Grid.map f g).
Proof.
  intros Hf y x v. rewrite pixel_map.
  destruct (pixel g y x); simpl; [|done]. intros [= <-]. apply Hf.
Qed.

End GridFacts.

(** * Facts about the library primitives *)

Section ByteFacts.

Lemma lnot_byte v : 0 ≤ v < 256 → Z.land (Z.lnot v) 255 = 255 - v.
Proof.
  intros Hv. change 255 with (Z.ones 8) at 1. rewrite Z.land_ones by lia.
  unfold Z.lnot. change (2 ^ 8) with 256.
  symmetry. apply (Z.mod_unique _ _ (-1)); lia.
Qed.

Lemma lnot_byte_involutive v :
  0 ≤ v < 256 → Z.land (Z.lnot (Z.land (Z.lnot v) 255)) 255 = v.
Proof. intros Hv. rewrite (lnot_byte v), lnot_byte; lia. Qed.

Lemma land_mask u v :
  (u = 0 ∨ u = 255) → (v = 0 ∨ v = 255) →
  (Z.land u v = 0 ∨ Z.land u v = 255)
  ∧ (Z.land u v = 255 ↔ u = 255 ∧ v = 255).
Proof.
  intros [-> | ->] [-> | ->];
    rewrite ?Z.land_0_l, ?Z.land_0_r, ?Z.land_diag; (split; [auto | lia]).
Qed.

Lemma min_list_le (l : list Z) v : v ∈ l → foldr Z.min 255 l ≤ v.
Proof.
  induction 1 as [v l | v u l _ IH]; simpl; lia.
Qed.

Lemma min_list_mask (l : list Z) :
  Forall (λ v, v = 0 ∨ v = 255) l →
  foldr Z.min 255 l = 0 ∨ foldr Z.min 255 l = 255.
Proof.
  induction 1 as [|v l Hv _ IH]; simpl; [by right|].
  destruct Hv as [-> | ->], IH as [-> | ->]; cbn; auto.
Qed.

End ByteFacts.

Section Cv2Facts.

Implicit Types (src kernel a : image) (y x i j : nat).

Lemma pixel_setitem_block a (r0 r1 c0 c1 : nat) v i j :
  pixel (Cv2.setitem_block a r0 r1 c0 c1 v) i j =
    (λ old, if (r0 <=? i)%nat && (i <? r1)%nat
            then if (c0 <=? j)%nat && (j <? c1)%nat then v else old
            else old) <$> pixel a i j.
Proof.
  unfold pixel, Cv2.setitem_block. rewrite list_lookup_imap.
  destruct (a !! i) as [row|]; simpl; [|done].
  destruct ((r0 <=? i)%nat && (i <? r1)%nat); [|by destruct (row !! j)].
  rewrite list_lookup_imap. by destruct (row !! j).
Qed.

Lemma row_lengths_setitem_block a (r0 r1 c0 c1 : nat) v :
  length <$> Cv2.setitem_block a r0 r1 c0 c1 v = length <$> a.
Proof.
  apply list_eq. intros i. unfold Cv2.setitem_block.
  rewrite !list_lookup_fmap, list_lookup_imap.
  destruct (a !! i) as [row|]; simpl; [|done].
  destruct (_ && _); [|done]. by rewrite length_imap.
Qed.

(** The support of a kernel is the set of its cells that are not zero. *)
Lemma kernel_support_spec kernel i j :
  (i, j) ∈ Cv2.kernel_support kernel ↔
  ∃ v, pixel kernel i j = Some v ∧ v ≠ 0.
Proof.
  unfold Cv2.kernel_support, pixel. rewrite list_elem_of_join. split.
  - intros (l & Hin & Hl).
    apply elem_of_lookup_imap in Hl as (i' & krow & -> & Hrow).
    apply list_elem_of_omap in Hin as ([j' kv] & Hcell & Hnz).
    apply elem_of_lookup_imap in Hcell as (j'' & kv' & [= -> ->] & Hkv).
    simpl in Hnz. destruct (Z.eqb_spec kv' 0) as [|Hne]; [done|].
    injection Hnz as <- <-. rewrite Hrow. eauto.
  - intros (v & Hpix & Hne).
    destruct (kernel !! i) as [krow|] eqn:Hrow; [|done].
    eexists. split; [|by eapply elem_of_lookup_imap_2].
    apply list_elem_of_omap. exists (j, v). split.
    + by apply (elem_of_lookup_imap_2 (λ j kv, (j, kv))).
    + simpl. by destruct (Z.eqb_spec v 0).
Qed.

Lemma pixel_erode src kernel y x :
  pixel (Cv2.erode src kernel) y x =
    (λ _, Cv2.erode_at src kernel (Z.of_nat (height kernel) / 2)
                       (Z.of_nat (width kernel) / 2) y x) <$> pixel src y x.
Proof. unfold Cv2.erode. apply pixel_tabulate_like. Qed.

Lemma row_lengths_erode src kernel :
  length <$> Cv2.erode src kernel = length <$> src.
Proof. unfold Cv2.erode. apply row_lengths_tabulate_like. Qed.

Lemma at_or_border_mask src (y x : Z) :
  is_mask src →
  Cv2.at_or_border src y x = 0 ∨ Cv2.at_or_border src y x = 255.
Proof.
  intros Hmask. unfold Cv2.at_or_border.
  destruct (_ && _); [|by right].
  destruct (pixel src _ _) as [v|] eqn:Hv; simpl; [eauto | by right].
Qed.

Lemma at_or_border_inside src y x v :
  pixel src y x = Some v →
  Cv2.at_or_border src (Z.of_nat y) (Z.of_nat x) = v.
Proof.
  intros Hv. unfold Cv2.at_or_border.
  replace ((0 <=? Z.of_nat y) && (0 <=? Z.of_nat x)) with true
    by (symmetry; apply andb_true_iff; split; apply Z.leb_le; lia).
  by rewrite !Nat2Z.id, Hv.
Qed.

(** Erosion never exceeds the sample under any cell of the support. *)
Lemma erode_at_le src kernel (ay ax : Z) y x i j :
  (i, j) ∈ Cv2.kernel_support kernel →
  Cv2.erode_at src kernel ay ax y x ≤
    Cv2.at_or_border src (Z.of_nat y + Z.of_nat i - ay)
                         (Z.of_nat x + Z.of_nat j - ax).
Proof.
  intros Hin. apply min_list_le. unfold Cv2.neighbourhood.
  apply list_elem_of_fmap. by exists (i, j).
Qed.

Lemma erode_at_mask src kernel (ay ax : Z) y x :
  is_mask src →
  Cv2.erode_at src kernel ay ax y x = 0 ∨
  Cv2.erode_at src kernel ay ax y x = 255.
Proof.
  intros Hmask. apply min_list_mask. unfold Cv2.neighbourhood.
  apply Forall_fmap, Forall_forall. intros ij _. simpl.
  by apply at_or_border_mask.
Qed.

Lemma is_mask_erode src kernel : is_mask src → is_mask (Cv2.erode src kernel).
Proof.
  intros Hmask y x v. rewrite pixel_erode.
  destruct (pixel src y x); simpl; [|done].
  intros [= <-]. by apply erode_at_mask.
Qed.

(** Where some cell of the support lies over a zero of a mask, the
    erosion is zero. *)
Lemma erode_at_zero src kernel (ay ax : Z) y x i j :
  is_mask src →
  (i, j) ∈ Cv2.kernel_support kernel →
  Cv2.at_or_border src (Z.of_nat y + Z.of_nat i - ay)
                       (Z.of_nat x + Z.of_nat j - ax) = 0 →
  Cv2.erode_at src kernel ay ax y x = 0.
Proof.
  intros Hmask Hin Hzero.
  pose proof (erode_at_le src kernel ay ax y x i j Hin) as Hle.
  destruct (erode_at_mask src kernel ay ax y x Hmask) as [-> | Heq]; [done|].
  lia.
Qed.

Lemma pixel_threshold_binary src (thresh maxval : Z) y x :
  pixel (Cv2.threshold_binary src thresh maxval).2 y x =
    (λ v, if thresh <? v then maxval else 0) <$> pixel src y x.
Proof. apply pixel_map. Qed.

Lemma pixel_bitwise_and a (b : image) y x :
  pixel (Cv2.bitwise_and a b) y x =
    match pixel a y x, pixel b y x with
    | Some u, Some v => Some (Z.land u v)
    | _, _ => None
    end.
Proof. apply pixel_map2. Qed.

Lemma bitwise_and_absorb_r a (b : image) :
  Cv2.bitwise_and (Cv2.bitwise_and a b) b = Cv2.bitwise_and a b.
Proof.
  unfold Cv2.bitwise_and, Grid.map2. apply list_eq. intros y.
  rewrite !lookup_zip_with.
  destruct (a !! y) as [ra|], (b !! y) as [rb|]; simpl; try done.
  f_equal. apply list_eq. intros x. rewrite !lookup_zip_with.
  destruct (ra !! x) as [u|], (rb !! x) as [v|]; simpl; try done.
  by rewrite <- Z.land_assoc, Z.land_diag.
Qed.

Lemma bitwise_and_absorb_l a (b : image) :
  Cv2.bitwise_and a (Cv2.bitwise_and a b) = Cv2.bitwise_and a b.
Proof.
  unfold Cv2.bitwise_and, Grid.map2. apply list_eq. intros y.
  rewrite !lookup_zip_with.
  destruct (a !! y) as [ra|], (b !! y) as [rb|]; simpl; try done.
  f_equal. apply list_eq. intros x. rewrite !lookup_zip_with.
  destruct (ra !! x) as [u|], (rb !! x) as [v|]; simpl; try done.
  by rewrite Z.land_assoc, Z.land_diag.
Qed.

Lemma bitwise_and_diag a : Cv2.bitwise_and a a = a.
Proof.
  unfold Cv2.bitwise_and, Grid.map2. apply list_eq. intros y.
  rewrite lookup_zip_with.
  destruct (a !! y) as [ra|]; simpl; [|done].
  f_equal. apply list_eq. intros x. rewrite lookup_zip_with.
  destruct (ra !! x) as [u|]; simpl; [|done]. by rewrite Z.land_diag.
Qed.

End Cv2Facts.

(** * Facts about the script *)

Section ScriptFacts.

Import Script.

(** Symbolic execution of the monad, leaving the library calls folded. *)
Ltac run :=
  cbn -[Cv2.erode Cv2.bitwise_not Cv2.bitwise_and Cv2.threshold_binary
        Cv2.getStructuringElement_ellipse Cv2.setitem_block String.append
        same_shape PosixPath.basename PosixPath.join].

Lemma same_shape_erosions (image_gray : image) :
  same_shape (erosion_hit image_gray) (erosion_miss image_gray) = true.
Proof.
  apply bool_decide_eq_true. unfold erosion_hit, erosion_miss.
  rewrite !row_lengths_erode. unfold complement_image, Cv2.bitwise_not.
  by rewrite row_lengths_map.
Qed.

Lemma apply_hit_or_miss_loaded w image_path output_dir image_gray :
  decode w image_path = Some image_gray →
  apply_hit_or_miss image_path output_dir (boot w) =
    ((if has_encoder w (output_path_of image_path output_dir)
      then Returned tt else Raised no_writer),
     {| heap := heap_of image_gray;
        events := events_of image_gray;
        current_figure :=
          if closes (backend w) then None
          else Some (figure_of image_path image_gray);
        env := {| decode := decode w;
                  can_create := can_create w;
                  has_encoder := has_encoder w;
                  backend := backend w;
                  written :=
                    if has_encoder w (output_path_of image_path output_dir)
                       && can_create w (output_path_of image_path output_dir)
                    then written w ++
                           [(output_path_of image_path output_dir,
                             hit_or_miss_result image_gray)]
                    else written w;
                  stdout :=
                    stdout w ++
                      ("Processing image: " +:+ image_path)
                      :: (if has_encoder w
                               (output_path_of image_path output_dir)
                          then ["Result saved to: "
                                  +:+ output_path_of image_path output_dir
                                  +:+ newline]
                          else []);
                  shown :=
                    if displays (backend w)
                    then shown w ++ [figure_of image_path image_gray]
                    else shown w |}
     |}).
Proof.
  intros Hload. unfold apply_hit_or_miss.
  unfold bind at 1, print at 1, with_env at 1, boot. run.
  unfold bind at 1, imread at 1, bind at 1, ask at 1. run.
  rewrite Hload. run.
  unfold bind at 1, bitwise_and at 1. run.
  change (same_shape _ _)
    with (same_shape (erosion_hit image_gray) (erosion_miss image_gray)).
  rewrite same_shape_erosions. run.
  destruct (backend w); run;
    (unfold bind at 1, imwrite at 1; run; unfold output_path_of;
     destruct (has_encoder w _); run; [|done];
     destruct (can_create w _); run; unfold print, with_env; run;
     by rewrite <- app_assoc).
Qed.

Lemma apply_hit_or_miss_not_loaded w image_path output_dir :
  decode w image_path = None →
  apply_hit_or_miss image_path output_dir (boot w) =
    (Returned tt,
     {| heap := [];
        events := [];
        current_figure := None;
        env := {| decode := decode w;
                  can_create := can_create w;
                  has_encoder := has_encoder w;
                  backend := backend w;
                  written := written w;
                  stdout :=
                    stdout w ++
                      ["Processing image: " +:+ image_path;
                       "Error: Could not load image at " +:+ image_path];
                  shown := shown w |} |}).
Proof.
  intros Hload. unfold apply_hit_or_miss.
  unfold bind at 1, print at 1, with_env at 1, boot. run.
  unfold bind at 1, imread at 1, bind at 1, ask at 1. run.
  rewrite Hload. run. unfold print, with_env. run.
  by rewrite <- app_assoc.
Qed.

Lemma is_mask_binary_image (image_gray : image) :
  is_mask (binary_image image_gray).
Proof.
  apply is_mask_map. intros v. destruct (150 <? v); auto.
Qed.

Lemma is_mask_complement_image (image_gray : image) :
  is_mask (complement_image image_gray).
Proof.
  intros y x v. unfold complement_image, Cv2.bitwise_not.
  rewrite pixel_map.
  destruct (pixel (binary_image image_gray) y x) as [u|] eqn:Hu; [|done].
  simpl. intros [= <-].
  destruct (is_mask_binary_image _ _ _ _ Hu) as [-> | ->]; auto.
Qed.

Lemma hit_kernel_anchor :
  height hit_kernel = 20%nat ∧ width hit_kernel = 20%nat ∧
  (10, 10)%nat ∈ Cv2.kernel_support hit_kernel.
Proof.
  split; [by vm_compute|]. split; [by vm_compute|].
  apply kernel_support_spec. exists 1. split; [by vm_compute | lia].
Qed.

Lemma miss_kernel_ring :
  height miss_kernel = 40%nat ∧ width miss_kernel = 40%nat ∧
  (30, 20)%nat ∈ Cv2.kernel_support miss_kernel ∧
  (9, 20)%nat ∈ Cv2.kernel_support miss_kernel.
Proof.
  split; [by vm_compute|]. split; [by vm_compute|].
  split; apply kernel_support_spec; exists 1; (split; [by vm_compute | lia]).
Qed.

(** Over a black raster of at least 21 rows, every position of the ring
    has a cell of its support inside the raster, ten rows below the
    anchor or eleven rows above it. *)
Lemma erode_black_miss_kernel (h w : nat) :
  (21 ≤ h)%nat → Cv2.erode (full h w 0) miss_kernel = full h w 0.
Proof.
  intros Hh. destruct miss_kernel_ring as (Hheight & Hwidth & Hlow & Hhigh).
  apply image_eq; [apply row_lengths_erode|]. intros y x.
  rewrite pixel_erode, pixel_full, Hheight, Hwidth.
  change (Z.of_nat 40 / 2) with 20.
  case_decide as Hin; [simpl; f_equal | done]. destruct Hin as [Hy Hx].
  assert (Hmask : is_mask (full h w 0)) by (apply is_mask_full; auto).
  destruct (decide (y + 10 < h)%nat) as [Hbelow | Habove].
  - apply (erode_at_zero _ _ _ _ _ _ 30%nat 20%nat Hmask Hlow).
    replace (Z.of_nat y + Z.of_nat 30 - 20) with (Z.of_nat (y + 10)) by lia.
    replace (Z.of_nat x + Z.of_nat 20 - 20) with (Z.of_nat x) by lia.
    apply at_or_border_inside. rewrite pixel_full.
    case_decide; [done | lia].
  - apply (erode_at_zero _ _ _ _ _ _ 9%nat 20%nat Hmask Hhigh).
    replace (Z.of_nat y + Z.of_nat 9 - 20) with (Z.of_nat (y - 11)) by lia.
    replace (Z.of_nat x + Z.of_nat 20 - 20) with (Z.of_nat x) by lia.
    apply at_or_border_inside. rewrite pixel_full.
    case_decide; [done | lia].
Qed.

Lemma bitwise_and_black (h w : nat) (a : image) :
  has_shape h w a = true → Cv2.bitwise_and a (full h w 0) = full h w 0.
Proof.
  intros Ha. pose proof Ha as Hlen%has_shape_row_lengths.
  apply image_eq.
  - unfold Cv2.bitwise_and.
    rewrite row_lengths_map2; rewrite row_lengths_full; done.
  - intros y x. rewrite pixel_bitwise_and, pixel_full.
    case_decide as Hin; [|by destruct (pixel a y x)].
    destruct Hin as [Hy Hx].
    destruct (has_shape_pixel _ _ _ _ _ Ha Hy Hx) as [u ->].
    by rewrite Z.land_0_r.
Qed.

Lemma threshold_white (h w : nat) :
  binary_image (full h w 255) = full h w 255.
Proof.
  unfold binary_image, Cv2.threshold_binary, Grid.map, full. simpl.
  by rewrite !fmap_replicate.
Qed.

Lemma complement_white (h w : nat) :
  complement_image (full h w 255) = full h w 0.
Proof.
  unfold complement_image. rewrite threshold_white.
  unfold Cv2.bitwise_not, Grid.map, full. by rewrite !fmap_replicate.
Qed.

Lemma pixel_carved (e : image) (i j : nat) :
  has_shape 40 40 e = true →
  (10 ≤ i < 30)%nat → (10 ≤ j < 30)%nat →
  pixel (Cv2.setitem_block e 10 30 10 30 0) i j = Some 0.
Proof.
  intros He Hi Hj. rewrite pixel_setitem_block.
  destruct (has_shape_pixel 40 40 e i j He) as [old ->]; [lia | lia |].
  assert (Hrow : ((10 <=? i)%nat && (i <? 30)%nat) = true)
    by (apply andb_true_iff; split; [apply Nat.leb_le | apply Nat.ltb_lt]; lia).
  assert (Hcol : ((10 <=? j)%nat && (j <? 30)%nat) = true)
    by (apply andb_true_iff; split; [apply Nat.leb_le | apply Nat.ltb_lt]; lia).
  by rewrite Hrow, Hcol.
Qed.

Lemma has_shape_carved (h w : nat) (e : image) :
  has_shape h w e = true →
  has_shape h w (Cv2.setitem_block e 10 30 10 30 0) = true.
Proof. apply has_shape_same, row_lengths_setitem_block. Qed.

Lemma bitwise_not_involutive_bytes (g : image) :
  (∀ y x v, pixel g y x = Some v → 0 ≤ v < 256) →
  Cv2.bitwise_not (Cv2.bitwise_not g) = g.
Proof.
  intros Hbytes. unfold Cv2.bitwise_not. apply image_eq.
  - by rewrite !row_lengths_map.
  - intros y x. rewrite !pixel_map.
    destruct (pixel g y x) as [v|] eqn:Hv; simpl; [|done].
    f_equal. apply lnot_byte_involutive. eauto.
Qed.

Lemma has_shape_stages (h w : nat) (image_gray : image) :
  has_shape h w image_gray = true →
  has_shape h w (binary_image image_gray) = true
  ∧ has_shape h w (complement_image image_gray) = true
  ∧ has_shape h w (erosion_hit image_gray) = true
  ∧ has_shape h w (erosion_miss image_gray) = true
  ∧ has_shape h w (hit_or_miss_result image_gray) = true.
Proof.
  intros Hsrc.
  assert (Hbin : length <$> binary_image image_gray = length <$> image_gray)
    by apply row_lengths_map.
  assert (Hcompl : length <$> complement_image image_gray
                   = length <$> image_gray)
    by (unfold complement_image, Cv2.bitwise_not;
        by rewrite row_lengths_map).
  assert (Hhit : length <$> erosion_hit image_gray = length <$> image_gray)
    by (unfold erosion_hit; by rewrite row_lengths_erode).
  assert (Hmiss : length <$> erosion_miss image_gray = length <$> image_gray)
    by (unfold erosion_miss; by rewrite row_lengths_erode).
  assert (Hres : length <$> hit_or_miss_result image_gray
                 = length <$> image_gray)
    by (unfold hit_or_miss_result, Cv2.bitwise_and;
        rewrite row_lengths_map2; congruence).
  repeat split; by eapply has_shape_same.
Qed.

Lemma imwrite_refused (path : string) (r : ref) (a : image) (s : state) :
  heap s !! r = Some a →
  has_encoder (env s) path = true →
  can_create (env s) path = false →
  imwrite path r s = (Returned false, s).
Proof.
  intros Hr Henc Hdir. unfold imwrite, bind, load, ask, ret.
  by rewrite Hr, Henc, Hdir.
Qed.

End ScriptFacts.

(** * The properties of the specification *)

Import Script.

(** C1, as stated, fails: a sample equal to 150 is not above the threshold,
    so it is binarized to 0 although it is greater than or equal to 150. *)
Lemma threshold_at_least_150_refuted :
  ¬ (∀ (image_gray : image) (y x : nat) (v : Z),
       pixel image_gray y x = Some v →
       (pixel (binary_image image_gray) y x = Some 255 ↔ 150 ≤ v)).
Proof.
  intros Hclaim.
  destruct (Hclaim [[150]] 0%nat 0%nat 150 eq_refl) as [_ Hback].
  discriminate Hback. lia.
Qed.

(** C1, amended: for every loaded raster and every cell, the binarized mask
    value is 255 if and only if the raster sample at that cell is strictly
    greater than 150, and is 0 otherwise. *)
Theorem binary_image_threshold (image_gray : image) (y x : nat) (v : Z) :
  pixel image_gray y x = Some v →
  pixel (binary_image image_gray) y x = Some (if 150 <? v then 255 else 0)
  ∧ (pixel (binary_image image_gray) y x = Some 255 ↔ 150 < v)
  ∧ (pixel (binary_image image_gray) y x = Some 0 ↔ v ≤ 150).
Proof.
  intros Hv. unfold binary_image.
  rewrite pixel_threshold_binary, Hv. simpl.
  destruct (Z.ltb_spec 150 v); (split; [done|]); split; split;
    (lia || intros ?; (done || f_equal; lia)).
Qed.

Lemma binary_image_threshold_witness :
  pixel sample_raster 0 1 = Some 150
  ∧ pixel (binary_image sample_raster) 0 1 = Some 0
  ∧ pixel (binary_image sample_raster) 1 1 = Some 255.
Proof.
  split; [reflexivity|].
  destruct (binary_image_threshold sample_raster 0 1 150 eq_refl)
    as (Hlow & _ & _).
  destruct (binary_image_threshold sample_raster 1 1 151 eq_refl)
    as (Hhigh & _ & _).
  split; [exact Hlow | exact Hhigh].
Defined.

(** C2: at every cell the detection mask is foreground (255) exactly when
    both the hit-erosion and the miss-erosion are foreground there, it is
    0 at every other cell, and AND-ing the detection mask again with either
    erosion result, or with itself, gives the detection mask back. *)
Theorem detection_mask_is_and (image_gray : image) (y x : nat) :
  (pixel (hit_or_miss_result image_gray) y x = Some 255 ↔
     pixel (erosion_hit image_gray) y x = Some 255
     ∧ pixel (erosion_miss image_gray) y x = Some 255)
  ∧ (pixel (hit_or_miss_result image_gray) y x = None
     ∨ pixel (hit_or_miss_result image_gray) y x = Some 0
     ∨ pixel (hit_or_miss_result image_gray) y x = Some 255)
  ∧ Cv2.bitwise_and (hit_or_miss_result image_gray) (erosion_miss image_gray)
      = hit_or_miss_result image_gray
  ∧ Cv2.bitwise_and (erosion_hit image_gray) (hit_or_miss_result image_gray)
      = hit_or_miss_result image_gray
  ∧ Cv2.bitwise_and (hit_or_miss_result image_gray)
                    (hit_or_miss_result image_gray)
      = hit_or_miss_result image_gray.
Proof.
  assert (Hhit : is_mask (erosion_hit image_gray))
    by apply is_mask_erode, is_mask_binary_image.
  assert (Hmiss : is_mask (erosion_miss image_gray))
    by apply is_mask_erode, is_mask_complement_image.
  unfold hit_or_miss_result at 1 2 3 4. rewrite pixel_bitwise_and.
  split; [|split].
  - destruct (pixel (erosion_hit image_gray) y x) as [u|] eqn:Hu;
      [|split; [done | by intros [? _]]].
    destruct (pixel (erosion_miss image_gray) y x) as [v|] eqn:Hv;
      [|split; [done | by intros [_ ?]]].
    destruct (land_mask u v (Hhit _ _ _ Hu) (Hmiss _ _ _ Hv)) as [_ Hiff].
    split.
    + intros [= Hand]. apply Hiff in Hand as [-> ->]. done.
    + intros [[= ->] [= ->]]. done.
  - destruct (pixel (erosion_hit image_gray) y x) as [u|] eqn:Hu; [|by left].
    destruct (pixel (erosion_miss image_gray) y x) as [v|] eqn:Hv; [|by left].
    destruct (land_mask u v (Hhit _ _ _ Hu) (Hmiss _ _ _ Hv)) as [[-> | ->] _];
      auto.
  - unfold hit_or_miss_result.
    split; [apply bitwise_and_absorb_r|].
    split; [apply bitwise_and_absorb_l | apply bitwise_and_diag].
Qed.

(** C3: when the image at the source path cannot be decoded, the procedure
    prints a diagnostic naming that path and returns; it creates no array,
    writes no file and shows no figure. *)
Theorem load_failure_aborts (w : world) (image_path output_dir : string) :
  decode w image_path = None →
  apply_hit_or_miss image_path output_dir (boot w) =
    (Returned tt,
     {| heap := []; events := []; current_figure := None;
        env := {| decode := decode w;
                  can_create := can_create w;
                  has_encoder := has_encoder w;
                  backend := backend w;
                  written := written w;
                  stdout :=
                    stdout w ++
                      ["Processing image: " +:+ image_path;
                       "Error: Could not load image at " +:+ image_path];
                  shown := shown w |} |}).
Proof. apply apply_hit_or_miss_not_loaded. Qed.

Lemma load_failure_aborts_witness :
  decode (sample_world false true) imagepath = None
  ∧ written (env (main (boot (sample_world false true))).2) = []
  ∧ shown (env (main (boot (sample_world false true))).2) = []
  ∧ stdout (env (main (boot (sample_world false true))).2) =
      ["Processing image: Tr-me_0019.jpg";
       "Error: Could not load image at Tr-me_0019.jpg"].
Proof.
  split; [reflexivity|]. unfold main.
  rewrite (load_failure_aborts (sample_world false true) imagepath result_dir
             eq_refl).
  repeat split.
Defined.

(** C4: in every run that loads its raster, the miss structuring element is
    the 40 x 40 ellipse with rows 10..29 and columns 10..29 zeroed after its
    construction; every cell of that central block is 0, and would be for
    any 40 x 40 grid in place of the ellipse. *)
Theorem miss_kernel_centre_carved
    (w : world) (image_path output_dir : string) (image_gray e : image)
    (i j : nat) :
  decode w image_path = Some image_gray →
  has_shape 40 40 e = true →
  (10 ≤ i < 30)%nat →
  (10 ≤ j < 30)%nat →
  events (apply_hit_or_miss image_path output_dir (boot w)).2 !! 3%nat
    = Some (Alloc 3%nat (Cv2.getStructuringElement_ellipse (40, 40)))
  ∧ events (apply_hit_or_miss image_path output_dir (boot w)).2 !! 4%nat
    = Some (Store 3%nat (Cv2.getStructuringElement_ellipse (40, 40))
                    (Cv2.setitem_block
                       (Cv2.getStructuringElement_ellipse (40, 40))
                       10 30 10 30 0))
  ∧ heap (apply_hit_or_miss image_path output_dir (boot w)).2 !! 3%nat
    = Some miss_kernel
  ∧ has_shape 40 40 (Cv2.getStructuringElement_ellipse (40, 40)) = true
  ∧ has_shape 40 40 miss_kernel = true
  ∧ pixel miss_kernel i j = Some 0
  ∧ has_shape 40 40 (Cv2.setitem_block e 10 30 10 30 0) = true
  ∧ pixel (Cv2.setitem_block e 10 30 10 30 0) i j = Some 0.
Proof.
  intros Hload He Hi Hj.
  rewrite (apply_hit_or_miss_loaded _ _ _ _ Hload). simpl.
  assert (Hellipse : has_shape 40 40 miss_ellipse = true) by by vm_compute.
  do 4 (split; [done|]).
  split; [by apply has_shape_carved|].
  split; [by apply pixel_carved|].
  split; [by apply has_shape_carved | by apply pixel_carved].
Qed.

Lemma miss_kernel_centre_carved_witness :
  decode (sample_world true true) imagepath = Some sample_raster
  ∧ has_shape 40 40 (full 40 40 1) = true
  ∧ heap (main (boot (sample_world true true))).2 !! 3%nat = Some miss_kernel
  ∧ pixel miss_kernel 10 29 = Some 0
  ∧ pixel (Cv2.setitem_block (full 40 40 1) 10 30 10 30 0) 10 29 = Some 0.
Proof.
  split; [reflexivity|]. split; [reflexivity|].
  destruct (miss_kernel_centre_carved (sample_world true true) imagepath
              result_dir sample_raster (full 40 40 1) 10 29
              eq_refl eq_refl ltac:(lia) ltac:(lia))
    as (_ & _ & Hheap & _ & _ & Hcell & _ & Hany).
  split; [exact Hheap|]. split; [exact Hcell | exact Hany].
Defined.

(** C5: for the all-255 raster of 50 x 50 cells the binarized mask is
    all-255, its complement is all-zero, the miss-erosion is zero at every
    cell, and AND-ing any 50 x 50 hit-erosion result with it gives the
    all-zero detection mask, as the procedure's own result is. *)
Theorem white_raster_detects_nothing (hit : image) :
  has_shape 50 50 hit = true →
  binary_image (full 50 50 255) = full 50 50 255
  ∧ complement_image (full 50 50 255) = full 50 50 0
  ∧ erosion_miss (full 50 50 255) = full 50 50 0
  ∧ Cv2.bitwise_and hit (erosion_miss (full 50 50 255)) = full 50 50 0
  ∧ hit_or_miss_result (full 50 50 255) = full 50 50 0.
Proof.
  intros Hhit.
  assert (Hmiss : erosion_miss (full 50 50 255) = full 50 50 0).
  { unfold erosion_miss. rewrite complement_white.
    apply erode_black_miss_kernel. lia. }
  split; [apply threshold_white|]. split; [apply complement_white|].
  split; [exact Hmiss|].
  split; [rewrite Hmiss; by apply bitwise_and_black|].
  unfold hit_or_miss_result. rewrite Hmiss. apply bitwise_and_black.
  apply (has_shape_stages 50 50 (full 50 50 255)), has_shape_full.
Qed.

Lemma white_raster_detects_nothing_witness :
  has_shape 50 50 (full 50 50 255) = true
  ∧ Cv2.bitwise_and (full 50 50 255) (erosion_miss (full 50 50 255))
    = full 50 50 0.
Proof.
  split; [reflexivity|].
  destruct (white_raster_detects_nothing (full 50 50 255) eq_refl)
    as (_ & _ & _ & Hand & _).
  exact Hand.
Defined.

(** C6: complementing a binarized mask twice gives the binarized mask back,
    cell for cell. *)
Theorem complement_involutive (image_gray : image) :
  Cv2.bitwise_not (Cv2.bitwise_not (binary_image image_gray))
  = binary_image image_gray.
Proof.
  apply bitwise_not_involutive_bytes. intros y x v Hv.
  destruct (is_mask_binary_image image_gray y x v Hv); lia.
Qed.

(** C7: the binarized mask, its complement, both erosion results and the
    detection mask have the height and width of the loaded raster; the hit
    structuring element is 20 x 20 and the miss structuring element
    40 x 40, whatever the raster. *)
Theorem grids_share_shape (image_gray : image) (h w : nat) :
  has_shape h w image_gray = true →
  has_shape h w (binary_image image_gray) = true
  ∧ has_shape h w (complement_image image_gray) = true
  ∧ has_shape h w (erosion_hit image_gray) = true
  ∧ has_shape h w (erosion_miss image_gray) = true
  ∧ has_shape h w (hit_or_miss_result image_gray) = true
  ∧ has_shape 20 20 hit_kernel = true
  ∧ has_shape 40 40 miss_kernel = true.
Proof.
  intros Hsrc.
  destruct (has_shape_stages h w image_gray Hsrc) as (? & ? & ? & ? & ?).
  repeat split; try done; by vm_compute.
Qed.

Lemma grids_share_shape_witness :
  has_shape 2 2 sample_raster = true
  ∧ has_shape 2 2 (hit_or_miss_result sample_raster) = true.
Proof.
  split; [reflexivity|].
  destruct (grids_share_shape sample_raster 2 2 eq_refl)
    as (_ & _ & _ & _ & Hres & _).
  exact Hres.
Defined.

(** C8, as stated, fails: the run on the sample raster overwrites the miss
    structuring element, an array that already exists, with a different
    value. *)
Lemma miss_kernel_mutated_in_place :
  never_mutated (events (main (boot (sample_world true true))).2) = false.
Proof. by vm_compute. Qed.

(** C8, amended: the miss structuring element is the only array written
    after its creation (once, by the carve-out); every other array holds at
    the end of the run the value it was created with. *)
Theorem only_miss_kernel_mutated (w : world) (image_path output_dir : string) :
  (stores (events (apply_hit_or_miss image_path output_dir (boot w)).2) = []
   ∨ stores (events (apply_hit_or_miss image_path output_dir (boot w)).2)
     = [3%nat])
  ∧ Forall (λ rv : ref * image,
              rv.1 = 3%nat
              ∨ heap (apply_hit_or_miss image_path output_dir (boot w)).2
                  !! rv.1 = Some rv.2)
           (created
              (events (apply_hit_or_miss image_path output_dir (boot w)).2)).
Proof.
  destruct (decode w image_path) as [image_gray|] eqn:Hload.
  - rewrite (apply_hit_or_miss_loaded _ _ _ _ Hload). simpl.
    split; [by right|].
    repeat (apply Forall_cons; split; [simpl; auto|]). constructor.
  - rewrite (apply_hit_or_miss_not_loaded _ _ _ Hload). simpl.
    split; [by left | constructor].
Qed.

(** C9: wherever the detection mask is not zero it is 255, and there the
    hit-erosion and the binarized mask are 255 as well. *)
Theorem detection_within_binary (image_gray : image) (y x : nat) (v : Z) :
  pixel (hit_or_miss_result image_gray) y x = Some v →
  v ≠ 0 →
  v = 255
  ∧ pixel (erosion_hit image_gray) y x = Some 255
  ∧ pixel (binary_image image_gray) y x = Some 255.
Proof.
  intros Hres Hv.
  assert (Hbin : is_mask (binary_image image_gray))
    by apply is_mask_binary_image.
  assert (Hhit : is_mask (erosion_hit image_gray)) by by apply is_mask_erode.
  assert (Hmiss : is_mask (erosion_miss image_gray))
    by apply is_mask_erode, is_mask_complement_image.
  unfold hit_or_miss_result in Hres. rewrite pixel_bitwise_and in Hres.
  destruct (pixel (erosion_hit image_gray) y x) as [u|] eqn:Hu; [|done].
  destruct (pixel (erosion_miss image_gray) y x) as [m|] eqn:Hm; [|done].
  injection Hres as <-.
  assert (u = 255 ∧ Z.land u m = 255) as [-> Hand].
  { destruct (Hhit _ _ _ Hu) as [-> | ->], (Hmiss _ _ _ Hm) as [-> | ->];
      rewrite ?Z.land_0_l, ?Z.land_0_r, ?Z.land_diag in *; done. }
  split; [done|]. split; [done|].
  unfold erosion_hit in Hu. rewrite pixel_erode in Hu.
  destruct hit_kernel_anchor as (Hheight & Hwidth & Hanchor).
  rewrite Hheight, Hwidth in Hu. change (Z.of_nat 20 / 2) with 10 in Hu.
  destruct (pixel (binary_image image_gray) y x) as [b|] eqn:Hb; [|done].
  injection Hu as Hu. f_equal.
  pose proof (erode_at_le (binary_image image_gray) hit_kernel 10 10 y x
                10 10 Hanchor) as Hle.
  replace (Z.of_nat y + Z.of_nat 10 - 10) with (Z.of_nat y) in Hle by lia.
  replace (Z.of_nat x + Z.of_nat 10 - 10) with (Z.of_nat x) in Hle by lia.
  rewrite (at_or_border_inside _ _ _ _ Hb) in Hle.
  destruct (Hbin _ _ _ Hb); lia.
Qed.

Lemma detection_within_binary_witness :
  pixel (hit_or_miss_result [[200]]) 0 0 = Some 255
  ∧ pixel (binary_image [[200]]) 0 0 = Some 255.
Proof.
  split; [by vm_compute|].
  destruct (detection_within_binary [[200]] 0 0 255
              ltac:(by vm_compute) ltac:(lia)) as (_ & _ & Hbin).
  exact Hbin.
Defined.

(** C10, as stated, fails: a scan that loads but is stored under a name
    whose extension the library cannot write makes the run end in the
    error [cv2.imwrite] raises, whether or not the output directory
    exists; no "Result saved to" line is printed. *)
Lemma missing_output_dir_can_raise :
  ¬ (∀ (w : world) (image_path output_dir : string) (image_gray : image),
       decode w image_path = Some image_gray →
       can_create w (output_path_of image_path output_dir) = false →
       (apply_hit_or_miss image_path output_dir (boot w)).1 = Returned tt).
Proof.
  intros Hclaim.
  specialize (Hclaim odd_extension_world "scan.xyz" "results" sample_raster
                eq_refl eq_refl).
  rewrite (apply_hit_or_miss_loaded odd_extension_world "scan.xyz" "results"
             sample_raster eq_refl) in Hclaim.
  discriminate Hclaim.
Qed.

(** C10, amended: when the raster loads, the library has a writer for the
    extension of the output path, and no file can be created at the output
    path, the write is refused with a [False] status that the procedure
    drops: the run returns normally, no file is written, and the last line
    printed announces the result as saved to the output path. *)
Theorem missing_output_dir_is_silent
    (w : world) (image_path output_dir : string) (image_gray : image) :
  decode w image_path = Some image_gray →
  has_encoder w (output_path_of image_path output_dir) = true →
  can_create w (output_path_of image_path output_dir) = false →
  (apply_hit_or_miss image_path output_dir (boot w)).1 = Returned tt
  ∧ written (env (apply_hit_or_miss image_path output_dir (boot w)).2)
    = written w
  ∧ stdout (env (apply_hit_or_miss image_path output_dir (boot w)).2)
    = stdout w ++
        ["Processing image: " +:+ image_path;
         "Result saved to: " +:+ output_path_of image_path output_dir
           +:+ newline]
  ∧ imwrite (output_path_of image_path output_dir) 7%nat
            (apply_hit_or_miss image_path output_dir (boot w)).2
    = (Returned false, (apply_hit_or_miss image_path output_dir (boot w)).2).
Proof.
  intros Hload Henc Hdir.
  rewrite (apply_hit_or_miss_loaded _ _ _ _ Hload). simpl.
  rewrite Henc, Hdir. simpl.
  repeat split. by apply (imwrite_refused _ _ (hit_or_miss_result image_gray)).
Qed.

Lemma missing_output_dir_is_silent_witness :
  decode (sample_world true false) imagepath = Some sample_raster
  ∧ has_encoder (sample_world true false)
      (output_path_of imagepath result_dir) = true
  ∧ can_create (sample_world true false) (output_path_of imagepath result_dir)
    = false
  ∧ (main (boot (sample_world true false))).1 = Returned tt
  ∧ written (env (main (boot (sample_world true false))).2) = []
  ∧ stdout (env (main (boot (sample_world true false))).2)
    = ["Processing image: Tr-me_0019.jpg";
       "Result saved to: results/result_Tr-me_0019.jpg" +:+ newline].
Proof.
  split; [reflexivity|]. split; [reflexivity|]. split; [reflexivity|].
  destruct (missing_output_dir_is_silent (sample_world true false) imagepath
              result_dir sample_raster eq_refl eq_refl eq_refl)
    as (Hret & Hfiles & Hout & _).
  split; [exact Hret|]. split; [exact Hfiles | exact Hout].
Defined.

(** * Further properties of the script *)

Section ErosionFacts.

Implicit Types (src kernel : image) (y x i j : nat).

Lemma min_list_all_255 (l : list Z) :
  Forall (λ v, v = 0 ∨ v = 255) l →
  foldr Z.min 255 l = 255 ↔ Forall (λ v, v = 255) l.
Proof.
  induction 1 as [|v l Hv Hl IH]; simpl; [done|].
  rewrite Forall_cons, <- IH.
  destruct (min_list_mask l Hl) as [-> | ->], Hv as [-> | ->]; cbn; lia.
Qed.

Lemma at_or_border_sample src (y x : Z) :
  Cv2.at_or_border src y x = default 255 (sample_at src y x).
Proof. unfold Cv2.at_or_border, sample_at. by destruct (_ && _). Qed.

Lemma sample_at_map (f : Z → Z) src (y x : Z) :
  sample_at (Grid.map f src) y x = f <$> sample_at src y x.
Proof. unfold sample_at. destruct (_ && _); [apply pixel_map | done]. Qed.

Lemma sample_at_inside src (y x : Z) v :
  sample_at src y x = Some v ↔
  0 ≤ y ∧ 0 ≤ x ∧ pixel src (Z.to_nat y) (Z.to_nat x) = Some v.
Proof.
  unfold sample_at.
  destruct (Z.leb_spec 0 y), (Z.leb_spec 0 x); simpl; split;
    try done; try (intros (? & ? & ?); lia); by intros (_ & _ & ?).
Qed.

(** An eroded cell of a mask is 255 exactly when every cell under the
    support of the kernel reads 255, the border included. *)
Lemma erode_pixel_255 src kernel y x :
  is_mask src →
  pixel (Cv2.erode src kernel) y x = Some 255 ↔
    is_Some (pixel src y x)
    ∧ ∀ i j, (i, j) ∈ Cv2.kernel_support kernel →
        Cv2.at_or_border src
          (Z.of_nat y + Z.of_nat i - Z.of_nat (height kernel) / 2)
          (Z.of_nat x + Z.of_nat j - Z.of_nat (width kernel) / 2) = 255.
Proof.
  intros Hmask. rewrite pixel_erode. unfold Cv2.erode_at, Cv2.neighbourhood.
  set (ay := Z.of_nat (height kernel) / 2).
  set (ax := Z.of_nat (width kernel) / 2).
  assert (Hall : Forall (λ v, v = 0 ∨ v = 255)
            ((λ ij : nat * nat,
                Cv2.at_or_border src (Z.of_nat y + Z.of_nat ij.1 - ay)
                  (Z.of_nat x + Z.of_nat ij.2 - ax))
               <$> Cv2.kernel_support kernel)).
  { apply Forall_fmap, Forall_forall. intros ij _. simpl.
    by apply at_or_border_mask. }
  pose proof (min_list_all_255 _ Hall) as Hmin.
  rewrite Forall_fmap, Forall_forall in Hmin.
  destruct (pixel src y x) as [v|]; simpl.
  - split.
    + intros [= Heq]. split; [by eexists|].
      intros i j Hin. by apply (proj1 Hmin Heq (i, j)).
    + intros [_ Hcells]. f_equal. apply Hmin. intros [i j] Hin.
      by apply Hcells.
  - split; [done | by intros [[? ?] _]].
Qed.

End ErosionFacts.

Section DetectionFacts.

Implicit Types (image_gray : image) (y x i j : nat).

Lemma bright_under_border image_gray (y x : Z) :
  Cv2.at_or_border (binary_image image_gray) y x = 255 ↔
  ∀ v, sample_at image_gray y x = Some v → 150 < v.
Proof.
  rewrite at_or_border_sample. unfold binary_image, Cv2.threshold_binary.
  simpl. rewrite sample_at_map.
  destruct (sample_at image_gray y x) as [v|]; simpl.
  - destruct (Z.ltb_spec 150 v); split; try done.
    + by intros _ ? [= <-].
    + intros Hv. specialize (Hv v eq_refl). lia.
  - split; [by intros _ ? | done].
Qed.

Lemma dark_under_border image_gray (y x : Z) :
  Cv2.at_or_border (complement_image image_gray) y x = 255 ↔
  ∀ v, sample_at image_gray y x = Some v → v ≤ 150.
Proof.
  rewrite at_or_border_sample.
  unfold complement_image, Cv2.bitwise_not, binary_image,
    Cv2.threshold_binary.
  simpl. rewrite !sample_at_map.
  destruct (sample_at image_gray y x) as [v|]; simpl.
  - destruct (Z.ltb_spec 150 v).
    + rewrite (lnot_byte 255) by lia. split; [done|].
      intros Hv. specialize (Hv v eq_refl). lia.
    + rewrite (lnot_byte 0) by lia. split; [|done].
      intros _ ? [= <-]. lia.
  - split; [by intros _ ? | done].
Qed.

Lemma pixel_result_255 image_gray y x :
  pixel (hit_or_miss_result image_gray) y x = Some 255 ↔
  pixel (erosion_hit image_gray) y x = Some 255
  ∧ pixel (erosion_miss image_gray) y x = Some 255.
Proof.
  assert (Hhit : is_mask (erosion_hit image_gray))
    by apply is_mask_erode, is_mask_binary_image.
  assert (Hmiss : is_mask (erosion_miss image_gray))
    by apply is_mask_erode, is_mask_complement_image.
  unfold hit_or_miss_result. rewrite pixel_bitwise_and.
  destruct (pixel (erosion_hit image_gray) y x) as [u|] eqn:Hu;
    [|split; [done | by intros [? _]]].
  destruct (pixel (erosion_miss image_gray) y x) as [v|] eqn:Hv;
    [|split; [done | by intros [_ ?]]].
  destruct (land_mask u v (Hhit _ _ _ Hu) (Hmiss _ _ _ Hv)) as [_ Hiff].
  split.
  - intros [= Hand]. by apply Hiff in Hand as [-> ->].
  - by intros [[= ->] [= ->]].
Qed.

Lemma pixel_stage_is_Some image_gray y x :
  (is_Some (pixel (binary_image image_gray) y x)
   ↔ is_Some (pixel image_gray y x))
  ∧ (is_Some (pixel (complement_image image_gray) y x)
     ↔ is_Some (pixel image_gray y x)).
Proof.
  unfold complement_image, Cv2.bitwise_not, binary_image,
    Cv2.threshold_binary. simpl. rewrite !pixel_map.
  destruct (pixel image_gray y x); simpl; split; split;
    (done || by intros [? ?] || by eexists).
Qed.

End DetectionFacts.

(** The detection mask in terms of the raster and the supports of the two
    structuring elements. *)
Lemma detected_iff_support (image_gray : image) (y x : nat) :
  pixel (hit_or_miss_result image_gray) y x = Some 255 ↔
    is_Some (pixel image_gray y x)
    ∧ (∀ i j v,
         (i, j) ∈ Cv2.kernel_support hit_kernel →
         sample_at image_gray (Z.of_nat y + Z.of_nat i - 10)
                              (Z.of_nat x + Z.of_nat j - 10) = Some v →
         150 < v)
    ∧ (∀ i j v,
         (i, j) ∈ Cv2.kernel_support miss_kernel →
         sample_at image_gray (Z.of_nat y + Z.of_nat i - 20)
                              (Z.of_nat x + Z.of_nat j - 20) = Some v →
         v ≤ 150).
Proof.
  destruct hit_kernel_anchor as (Hhh & Hhw & _).
  destruct miss_kernel_ring as (Hmh & Hmw & _).
  destruct (pixel_stage_is_Some image_gray y x) as [Hbin Hcompl].
  rewrite pixel_result_255. unfold erosion_hit, erosion_miss.
  rewrite (erode_pixel_255 _ _ _ _ (is_mask_binary_image image_gray)).
  rewrite (erode_pixel_255 _ _ _ _ (is_mask_complement_image image_gray)).
  rewrite Hhh, Hhw, Hmh, Hmw, Hbin, Hcompl.
  change (Z.of_nat 20 / 2) with 10. change (Z.of_nat 40 / 2) with 20.
  split.
  - intros [[Hcell Hhit] [_ Hmiss]]. split; [done|]. split.
    + intros i j v Hin. by apply bright_under_border, Hhit.
    + intros i j v Hin. by apply dark_under_border, Hmiss.
  - intros (Hcell & Hhit & Hmiss). split; (split; [done|]).
    + intros i j Hin. apply bright_under_border. intros v. by apply Hhit.
    + intros i j Hin. apply dark_under_border. intros v. by apply Hmiss.
Qed.

(** X1: a cell of the detection mask is 255 exactly when it is a cell of the
    raster, every raster sample under a non-zero cell of the hit ellipse
    (anchored at its centre, offsets -10..9) is above 150, and every raster
    sample under a non-zero cell of the ring (offsets -20..19) is at most
    150; positions under either element that fall outside the raster
    impose nothing. *)
Theorem detection_characterised (image_gray : image) (y x : nat) :
  pixel (hit_or_miss_result image_gray) y x = Some 255 ↔
    is_Some (pixel image_gray y x)
    ∧ (∀ i j k v,
         pixel hit_kernel i j = Some k → k ≠ 0 →
         sample_at image_gray (Z.of_nat y + Z.of_nat i - 10)
                              (Z.of_nat x + Z.of_nat j - 10) = Some v →
         150 < v)
    ∧ (∀ i j k v,
         pixel miss_kernel i j = Some k → k ≠ 0 →
         sample_at image_gray (Z.of_nat y + Z.of_nat i - 20)
                              (Z.of_nat x + Z.of_nat j - 20) = Some v →
         v ≤ 150).
Proof.
  rewrite detected_iff_support. split.
  - intros (Hcell & Hhit & Hmiss). split; [done|]. split.
    + intros i j k v Hk Hnz. apply Hhit, kernel_support_spec. eauto.
    + intros i j k v Hk Hnz. apply Hmiss, kernel_support_spec. eauto.
  - intros (Hcell & Hhit & Hmiss). split; [done|]. split.
    + intros i j v (k & Hk & Hnz)%kernel_support_spec. by eapply Hhit.
    + intros i j v (k & Hk & Hnz)%kernel_support_spec. by eapply Hmiss.
Qed.

Section DetectionCorollaries.

Implicit Types (image_gray : image) (y x i j : nat).

Lemma sample_at_nat (src : image) y x :
  sample_at src (Z.of_nat y) (Z.of_nat x) = pixel src y x.
Proof.
  unfold sample_at.
  replace ((0 <=? Z.of_nat y) && (0 <=? Z.of_nat x)) with true
    by (symmetry; apply andb_true_iff; split; apply Z.leb_le; lia).
  by rewrite !Nat2Z.id.
Qed.

Lemma row_lengths_result image_gray :
  length <$> hit_or_miss_result image_gray = length <$> image_gray.
Proof.
  unfold hit_or_miss_result, Cv2.bitwise_and, erosion_hit, erosion_miss.
  rewrite row_lengths_map2; rewrite !row_lengths_erode.
  - apply row_lengths_map.
  - unfold complement_image, Cv2.bitwise_not. by rewrite row_lengths_map.
Qed.

Lemma pixel_result_cases image_gray y x :
  match pixel image_gray y x with
  | Some _ => pixel (hit_or_miss_result image_gray) y x = Some 0
              ∨ pixel (hit_or_miss_result image_gray) y x = Some 255
  | None => pixel (hit_or_miss_result image_gray) y x = None
  end.
Proof.
  unfold hit_or_miss_result, erosion_hit, erosion_miss.
  rewrite pixel_bitwise_and, !pixel_erode.
  unfold complement_image, Cv2.bitwise_not, binary_image,
    Cv2.threshold_binary. simpl. rewrite !pixel_map.
  destruct (pixel image_gray y x) as [u|]; simpl; [|done].
  match goal with
  | |- Some (Z.land ?a ?b) = _ ∨ _ =>
      assert (Ha : a = 0 ∨ a = 255)
        by apply erode_at_mask, (is_mask_binary_image image_gray);
      assert (Hb : b = 0 ∨ b = 255)
        by apply erode_at_mask, (is_mask_complement_image image_gray);
      destruct (land_mask a b Ha Hb) as [[-> | ->] _]; auto
  end.
Qed.

Lemma has_shape_pixel_lt (h w : nat) (g : image) y x v :
  has_shape h w g = true → pixel g y x = Some v → (y < h ∧ x < w)%nat.
Proof.
  intros Hg%has_shape_row_lengths Hv. unfold pixel in Hv.
  destruct (g !! y) as [row|] eqn:Hrow; [|done].
  assert (Hlen : (length <$> g) !! y = Some (length row))
    by by rewrite list_lookup_fmap, Hrow.
  rewrite Hg in Hlen. apply lookup_replicate in Hlen as [Hw Hy].
  apply lookup_lt_Some in Hv. lia.
Qed.

Lemma carved_support (e : image) i j :
  (i, j) ∈ Cv2.kernel_support (Cv2.setitem_block e 10 30 10 30 0) ↔
  (i, j) ∈ Cv2.kernel_support e ∧ in_carved_block i j = false.
Proof.
  rewrite !kernel_support_spec, pixel_setitem_block. unfold in_carved_block.
  generalize ((10 <=? i)%nat && (i <? 30)%nat) as in_rows.
  generalize ((10 <=? j)%nat && (j <? 30)%nat) as in_cols.
  intros [|] [|]; destruct (pixel e i j) as [old|]; simpl;
    (split; [intros (v & Heq & Hv) | intros [(v & Heq & Hv) Hb]]);
    simplify_eq/=; eauto.
Qed.

Lemma hit_kernel_cross i :
  (i < 20)%nat →
  (i, 10%nat) ∈ Cv2.kernel_support hit_kernel
  ∧ (10%nat, i) ∈ Cv2.kernel_support hit_kernel.
Proof.
  intros Hi.
  do 20 (destruct i as [|i];
         [split; apply kernel_support_spec; exists 1;
          (split; [by vm_compute | lia])|]).
  lia.
Qed.

Lemma miss_kernel_cross i :
  (i < 10 ∨ 30 ≤ i < 40)%nat →
  (i, 20%nat) ∈ Cv2.kernel_support miss_kernel
  ∧ (20%nat, i) ∈ Cv2.kernel_support miss_kernel.
Proof.
  intros Hi.
  do 10 (destruct i as [|i];
         [split; apply kernel_support_spec; exists 1;
          (split; [by vm_compute | lia])|]).
  do 20 (destruct i as [|i]; [lia|]).
  do 10 (destruct i as [|i];
         [split; apply kernel_support_spec; exists 1;
          (split; [by vm_compute | lia])|]).
  lia.
Qed.

End DetectionCorollaries.

(** X2: when no sample of the raster exceeds 150 the detection mask is zero
    at every cell, whatever the size of the raster. *)
Theorem dark_raster_detects_nothing (image_gray : image) :
  (∀ y x v, pixel image_gray y x = Some v → v ≤ 150) →
  hit_or_miss_result image_gray = Grid.map (λ _, 0) image_gray.
Proof.
  intros Hdark. apply image_eq.
  - by rewrite row_lengths_result, row_lengths_map.
  - intros y x. rewrite pixel_map.
    pose proof (pixel_result_cases image_gray y x) as Hcases.
    destruct (pixel image_gray y x) as [u|] eqn:Hu; simpl; [|done].
    destruct Hcases as [Hzero | Hfull]; [done|]. exfalso.
    apply detected_iff_support in Hfull as (_ & Hhit & _).
    destruct hit_kernel_anchor as (_ & _ & Hanchor).
    specialize (Hhit 10%nat 10%nat u Hanchor).
    replace (Z.of_nat y + Z.of_nat 10 - 10) with (Z.of_nat y) in Hhit by lia.
    replace (Z.of_nat x + Z.of_nat 10 - 10) with (Z.of_nat x) in Hhit by lia.
    rewrite sample_at_nat in Hhit. specialize (Hhit Hu).
    specialize (Hdark y x u Hu). lia.
Qed.

Lemma dark_raster_detects_nothing_witness :
  hit_or_miss_result [[0; 150]; [149; 7]] = [[0; 0]; [0; 0]].
Proof.
  apply (dark_raster_detects_nothing [[0; 150]; [149; 7]]).
  intros [|[|y]] [|[|x]] v; cbn; intros [= <-]; lia.
Defined.

(** X3: on a raster of at most 10 x 10 cells whose samples all exceed 150
    every cell is detected: no cell of the ring then lies inside the raster,
    and positions outside the raster do not count against either erosion. *)
Theorem small_bright_raster_detected_everywhere
    (image_gray : image) (h w : nat) :
  has_shape h w image_gray = true →
  (h ≤ 10)%nat → (w ≤ 10)%nat →
  (∀ y x v, pixel image_gray y x = Some v → 150 < v) →
  hit_or_miss_result image_gray = Grid.map (λ _, 255) image_gray.
Proof.
  intros Hshape Hh Hw Hbright. apply image_eq.
  - by rewrite row_lengths_result, row_lengths_map.
  - intros y x. rewrite pixel_map.
    pose proof (pixel_result_cases image_gray y x) as Hcases.
    destruct (pixel image_gray y x) as [u|] eqn:Hu; simpl; [|done].
    apply detected_iff_support. split; [by rewrite Hu|].
    destruct (has_shape_pixel_lt h w _ _ _ _ Hshape Hu) as [Hy Hx].
    split.
    + intros i j v _ (_ & _ & Hv)%sample_at_inside. by eapply Hbright.
    + intros i j v Hin (Hrow & Hcol & Hv)%sample_at_inside. exfalso.
      destruct (has_shape_pixel_lt h w _ _ _ _ Hshape Hv) as [Hy' Hx'].
      apply (carved_support miss_ellipse) in Hin as [_ Hblock].
      unfold in_carved_block in Hblock.
      apply andb_false_iff in Hblock as [Hblock | Hblock];
        apply andb_false_iff in Hblock as [Hblock | Hblock];
        (apply Nat.leb_gt in Hblock || apply Nat.ltb_ge in Hblock); lia.
Qed.

Lemma small_bright_raster_detected_everywhere_witness :
  hit_or_miss_result [[200; 151]; [255; 180]] = [[255; 255]; [255; 255]].
Proof.
  apply (small_bright_raster_detected_everywhere [[200; 151]; [255; 180]] 2 2).
  - reflexivity.
  - lia.
  - lia.
  - intros [|[|y]] [|[|x]] v; cbn; intros [= <-]; lia.
Defined.

(** X4: at a detected cell the raster is above 150 on the 20 cells from 10
    before to 9 after it, along its column and along its row, and at most
    150 on the 10 cells before and the 10 cells after that run; only
    positions inside the raster are constrained. *)
Theorem detected_cell_spans_twenty (image_gray : image) (y x : nat) :
  pixel (hit_or_miss_result image_gray) y x = Some 255 →
  (∀ (d v : Z), -10 ≤ d ≤ 9 →
     sample_at image_gray (Z.of_nat y + d) (Z.of_nat x) = Some v → 150 < v)
  ∧ (∀ (d v : Z), -10 ≤ d ≤ 9 →
       sample_at image_gray (Z.of_nat y) (Z.of_nat x + d) = Some v → 150 < v)
  ∧ (∀ (d v : Z), -20 ≤ d ≤ -11 ∨ 10 ≤ d ≤ 19 →
       sample_at image_gray (Z.of_nat y + d) (Z.of_nat x) = Some v → v ≤ 150)
  ∧ (∀ (d v : Z), -20 ≤ d ≤ -11 ∨ 10 ≤ d ≤ 19 →
       sample_at image_gray (Z.of_nat y) (Z.of_nat x + d) = Some v → v ≤ 150).
Proof.
  intros (_ & Hhit & Hmiss)%detected_iff_support.
  split; [|split; [|split]]; intros d v Hd Hv.
  - destruct (hit_kernel_cross (Z.to_nat (d + 10))) as [Hin _]; [lia|].
    apply (Hhit _ _ v Hin).
    by replace (Z.of_nat y + Z.of_nat (Z.to_nat (d + 10)) - 10)
         with (Z.of_nat y + d) by lia;
       replace (Z.of_nat x + Z.of_nat 10 - 10) with (Z.of_nat x) by lia.
  - destruct (hit_kernel_cross (Z.to_nat (d + 10))) as [_ Hin]; [lia|].
    apply (Hhit _ _ v Hin).
    by replace (Z.of_nat x + Z.of_nat (Z.to_nat (d + 10)) - 10)
         with (Z.of_nat x + d) by lia;
       replace (Z.of_nat y + Z.of_nat 10 - 10) with (Z.of_nat y) by lia.
  - destruct (miss_kernel_cross (Z.to_nat (d + 20))) as [Hin _]; [lia|].
    apply (Hmiss _ _ v Hin).
    by replace (Z.of_nat y + Z.of_nat (Z.to_nat (d + 20)) - 20)
         with (Z.of_nat y + d) by lia;
       replace (Z.of_nat x + Z.of_nat 20 - 20) with (Z.of_nat x) by lia.
  - destruct (miss_kernel_cross (Z.to_nat (d + 20))) as [_ Hin]; [lia|].
    apply (Hmiss _ _ v Hin).
    by replace (Z.of_nat x + Z.of_nat (Z.to_nat (d + 20)) - 20)
         with (Z.of_nat x + d) by lia;
       replace (Z.of_nat y + Z.of_nat 20 - 20) with (Z.of_nat y) by lia.
Qed.

Lemma detected_cell_spans_twenty_witness :
  pixel (hit_or_miss_result
           [[200]; [200]; [200]; [200]; [200]; [200]; [200]; [200]; [200];
            [200]; [0]]) 0 0 = Some 255
  ∧ sample_at [[200]; [200]; [200]; [200]; [200]; [200]; [200]; [200]; [200];
               [200]; [0]] 10 0 = Some 0
  ∧ 0 ≤ 150.
Proof.
  split; [by vm_compute|]. split; [reflexivity|].
  destruct (detected_cell_spans_twenty
              [[200]; [200]; [200]; [200]; [200]; [200]; [200]; [200]; [200];
               [200]; [0]] 0 0 ltac:(by vm_compute))
    as (_ & _ & Hdark & _).
  apply (Hdark 10 0); [lia | reflexivity].
Defined.

(** X5: the carve-out changes the cells of rows 10..29 x columns 10..29 to
    0 and no other cell, so the support of the carved element is the
    support of the original element less that block; the miss element
    therefore does not contain its own anchor cell (20, 20). *)
Theorem carve_out_makes_a_ring (e : image) (i j : nat) :
  pixel (Cv2.setitem_block e 10 30 10 30 0) i j
    = (if in_carved_block i j then (λ _, 0) <$> pixel e i j else pixel e i j)
  ∧ ((i, j) ∈ Cv2.kernel_support (Cv2.setitem_block e 10 30 10 30 0) ↔
       (i, j) ∈ Cv2.kernel_support e ∧ in_carved_block i j = false)
  ∧ (20, 20)%nat ∉ Cv2.kernel_support miss_kernel.
Proof.
  split; [|split].
  - rewrite pixel_setitem_block. unfold in_carved_block.
    generalize ((10 <=? i)%nat && (i <? 30)%nat) as in_rows.
    generalize ((10 <=? j)%nat && (j <? 30)%nat) as in_cols.
    by intros [|] [|]; destruct (pixel e i j).
  - apply carved_support.
  - intros [_ Hblock]%(carved_support miss_ellipse). by vm_compute in Hblock.
Qed.

Section PathFacts.

Import PosixPath.
Local Open Scope string_scope.

Lemma append_cons (c : Ascii.ascii) (a b : string) :
  String c a +:+ b = String c (a +:+ b).
Proof. reflexivity. Qed.

Lemma append_String_assoc (a b c : string) :
  (a +:+ b) +:+ c = a +:+ (b +:+ c).
Proof.
  induction a as [|ch a IH]; [done|]. by rewrite !append_cons, IH.
Qed.

Lemma has_slash_app (a b : string) :
  has_slash (a +:+ b) = has_slash a || has_slash b.
Proof.
  induction a as [|c a IH]; [done|].
  rewrite append_cons. simpl. by rewrite IH, orb_assoc.
Qed.

Lemma after_last_slash_None (p : string) :
  after_last_slash p = None ↔ has_slash p = false.
Proof.
  induction p as [|c rest IH]; simpl; [done|].
  destruct (after_last_slash rest) as [t|].
  - split; [done|]. intros [_ Hrest]%orb_false_iff.
    by apply IH in Hrest.
  - destruct (Ascii.eqb c slash); simpl; [done|]. by rewrite <- IH.
Qed.

Lemma after_last_slash_Some (p t : string) :
  after_last_slash p = Some t → has_slash t = false.
Proof.
  revert t. induction p as [|c rest IH]; simpl; intros t; [done|].
  destruct (after_last_slash rest) as [t'|] eqn:Hrest.
  - intros [= <-]. by apply IH.
  - destruct (Ascii.eqb c slash); [|done].
    intros [= <-]. by apply after_last_slash_None.
Qed.

Lemma after_last_slash_app (a f : string) :
  has_slash f = false → after_last_slash (a +:+ String slash f) = Some f.
Proof.
  intros Hf. induction a as [|c a IH].
  - change ("" +:+ String slash f) with (String slash f). simpl.
    apply after_last_slash_None in Hf. by rewrite Hf.
  - rewrite append_cons. simpl. by rewrite IH.
Qed.

Lemma ends_with_slash_split (a : string) :
  ends_with_slash a = true → ∃ a', a = a' +:+ String slash "".
Proof.
  induction a as [|c a IH]; simpl; [done|].
  destruct a as [|c' a'].
  - intros ->%Ascii.eqb_eq. by exists "".
  - intros [b ->]%IH. by exists (String c b).
Qed.

Lemma basename_slash_free (f : string) :
  has_slash f = false → basename f = f.
Proof.
  intros Hf%after_last_slash_None. unfold basename. by rewrite Hf.
Qed.

Lemma basename_join (d f : string) :
  has_slash f = false → basename (join d f) = f.
Proof.
  intros Hf. unfold join.
  assert (Hstart : starts_with_slash f = false).
  { destruct f as [|c f]; simpl in *; [done|].
    by apply orb_false_iff in Hf as [-> _]. }
  rewrite Hstart.
  destruct (String.eqb_spec d "") as [-> | Hd]; simpl.
  - by apply basename_slash_free.
  - destruct (ends_with_slash d) eqn:Hend.
    + apply ends_with_slash_split in Hend as [a ->].
      rewrite append_String_assoc.
      change (String slash "" +:+ f) with (String slash f).
      unfold basename. by rewrite after_last_slash_app.
    + change ("/" +:+ f) with (String slash f).
      unfold basename. by rewrite after_last_slash_app.
Qed.

End PathFacts.

(** X6: the output file is named [result_] followed by the base name of the
    image path, and sits directly in the output directory: the base name of
    the output path is that file name, whatever directories the image path
    names and whether or not the output directory ends in a separator. *)
Theorem output_file_name (image_path output_dir : string) :
  PosixPath.basename (output_path_of image_path output_dir)
    = "result_" +:+ PosixPath.basename image_path
  ∧ has_slash (PosixPath.basename image_path) = false.
Proof.
  assert (Hbase : has_slash (PosixPath.basename image_path) = false).
  { unfold PosixPath.basename.
    destruct (PosixPath.after_last_slash image_path) as [t|] eqn:Ht; simpl.
    - by eapply after_last_slash_Some.
    - by apply after_last_slash_None. }
  split; [|done]. unfold output_path_of. apply basename_join.
  by rewrite has_slash_app, Hbase.
Qed.

(** X7: the directory part of the image path does not reach the output
    path: a scan named [name] inside any directory is written to the same
    output path as [name] itself. *)
Theorem output_path_ignores_directory (dir name output_dir : string) :
  has_slash name = false →
  output_path_of (dir +:+ "/" +:+ name) output_dir
    = output_path_of name output_dir.
Proof.
  intros Hname. unfold output_path_of.
  change ("/" +:+ name) with (String PosixPath.slash name).
  unfold PosixPath.basename at 1.
  rewrite (after_last_slash_app dir name Hname). simpl.
  by rewrite basename_slash_free.
Qed.

Lemma output_path_ignores_directory_witness :
  has_slash "Tr-me_0019.jpg" = false
  ∧ output_path_of "scans/2024/Tr-me_0019.jpg" "results"
    = "results/result_Tr-me_0019.jpg".
Proof.
  split; [reflexivity|].
  exact (eq_trans
           (output_path_ignores_directory "scans/2024" "Tr-me_0019.jpg"
              "results" eq_refl)
           eq_refl).
Defined.

(** X8: when the raster loads, the library has a writer for the extension
    of the output path and a file can be created there, the run returns
    normally, writes exactly one file, the detection mask at the output
    path, and prints the two progress lines. *)
Theorem result_written_when_creatable
    (w : world) (image_path output_dir : string) (image_gray : image) :
  decode w image_path = Some image_gray →
  has_encoder w (output_path_of image_path output_dir) = true →
  can_create w (output_path_of image_path output_dir) = true →
  (apply_hit_or_miss image_path output_dir (boot w)).1 = Returned tt
  ∧ written (env (apply_hit_or_miss image_path output_dir (boot w)).2)
    = written w ++ [(output_path_of image_path output_dir,
                     hit_or_miss_result image_gray)]
  ∧ stdout (env (apply_hit_or_miss image_path output_dir (boot w)).2)
    = stdout w ++
        ["Processing image: " +:+ image_path;
         "Result saved to: " +:+ output_path_of image_path output_dir
           +:+ newline].
Proof.
  intros Hload Henc Hdir.
  rewrite (apply_hit_or_miss_loaded _ _ _ _ Hload). simpl.
  by rewrite Henc, Hdir.
Qed.

Lemma result_written_when_creatable_witness :
  decode (sample_world true true) imagepath = Some sample_raster
  ∧ has_encoder (sample_world true true)
      (output_path_of imagepath result_dir) = true
  ∧ can_create (sample_world true true) (output_path_of imagepath result_dir)
    = true
  ∧ written (env (main (boot (sample_world true true))).2)
    = [("results/result_Tr-me_0019.jpg", [[0; 0]; [0; 0]])].
Proof.
  split; [reflexivity|]. split; [reflexivity|]. split; [reflexivity|].
  destruct (result_written_when_creatable (sample_world true true) imagepath
              result_dir sample_raster eq_refl eq_refl eq_refl)
    as (_ & Hfiles & _).
  unfold main. rewrite Hfiles. by vm_compute.
Defined.

(** X9: a run that loads its raster builds one 20 x 5 figure and hands it
    to [plt.show()].  The figure has three panels, in slots 1, 2 and 3 of a
    1 x 5 grid: the raster as loaded, the binarized mask (under the title
    "Structured element") and the miss-erosion; neither the hit-erosion nor
    the detection mask is in it.  A backend that displays figures shows
    exactly this figure and a non-interactive one shows nothing; the figure
    is closed after the call only when the backend blocks until its window
    is closed, and otherwise stays the current figure. *)
Theorem figure_shown_on_success
    (w : world) (image_path output_dir : string) (image_gray : image) :
  decode w image_path = Some image_gray →
  figure_of image_path image_gray
    = {| figsize := (20, 5);
         subplots :=
           [{| grid_slot := (1, 5, 1)%nat;
               picture := Some (image_gray, "gray");
               caption := Some "Original";
               xticks := Some []; yticks := Some [] |};
            {| grid_slot := (1, 5, 2)%nat;
               picture := Some (binary_image image_gray, "gray");
               caption := Some "Structured element";
               xticks := Some []; yticks := Some [] |};
            {| grid_slot := (1, 5, 3)%nat;
               picture := Some (erosion_miss image_gray, "gray");
               caption := Some "Image after Erosion";
               xticks := Some []; yticks := Some [] |}];
         suptitle := Some ("Hit-or-Miss Transform for: "
                             +:+ PosixPath.basename image_path, 16) |}
  ∧ shown (env (apply_hit_or_miss image_path output_dir (boot w)).2)
    = (if displays (backend w)
       then shown w ++ [figure_of image_path image_gray]
       else shown w)
  ∧ current_figure (apply_hit_or_miss image_path output_dir (boot w)).2
    = (if closes (backend w)
       then None
       else Some (figure_of image_path image_gray)).
Proof.
  intros Hload. by rewrite (apply_hit_or_miss_loaded _ _ _ _ Hload).
Qed.

Lemma figure_shown_on_success_witness :
  decode (sample_world true false) imagepath = Some sample_raster
  ∧ length (shown (env (main (boot (sample_world true false))).2)) = 1%nat
  ∧ decode odd_extension_world "scan.xyz" = Some sample_raster
  ∧ shown (env (apply_hit_or_miss "scan.xyz" "results"
                  (boot odd_extension_world)).2) = []
  ∧ current_figure (apply_hit_or_miss "scan.xyz" "results"
                      (boot odd_extension_world)).2
    = Some (figure_of "scan.xyz" sample_raster).
Proof.
  split; [reflexivity|].
  destruct (figure_shown_on_success (sample_world true false) imagepath
              result_dir sample_raster eq_refl) as (_ & Hshown & _).
  split; [unfold main; by rewrite Hshown|].
  split; [reflexivity|].
  destruct (figure_shown_on_success odd_extension_world "scan.xyz" "results"
              sample_raster eq_refl) as (_ & Hnone & Hopen).
  split; [exact Hnone | exact Hopen].
Defined.

(** X10: when the raster loads but the library has no writer for the
    extension of the output path, the run ends in the error [cv2.imwrite]
    raises: every array has been computed and the figure handed to
    [plt.show()], but no file is written and the "Result saved to" line is
    not printed, whether or not the output directory exists. *)
Theorem unwritable_extension_raises
    (w : world) (image_path output_dir : string) (image_gray : image) :
  decode w image_path = Some image_gray →
  has_encoder w (output_path_of image_path output_dir) = false →
  (apply_hit_or_miss image_path output_dir (boot w)).1 = Raised no_writer
  ∧ heap (apply_hit_or_miss image_path output_dir (boot w)).2
    = heap_of image_gray
  ∧ written (env (apply_hit_or_miss image_path output_dir (boot w)).2)
    = written w
  ∧ stdout (env (apply_hit_or_miss image_path output_dir (boot w)).2)
    = stdout w ++ ["Processing image: " +:+ image_path].
Proof.
  intros Hload Henc.
  rewrite (apply_hit_or_miss_loaded _ _ _ _ Hload). simpl.
  by rewrite Henc.
Qed.

Lemma unwritable_extension_raises_witness :
  decode odd_extension_world "scan.xyz" = Some sample_raster
  ∧ has_encoder odd_extension_world (output_path_of "scan.xyz" "results")
    = false
  ∧ (apply_hit_or_miss "scan.xyz" "results" (boot odd_extension_world)).1
    = Raised no_writer
  ∧ stdout (env (apply_hit_or_miss "scan.xyz" "results"
                   (boot odd_extension_world)).2)
    = ["Processing image: scan.xyz"].
Proof.
  split; [reflexivity|]. split; [reflexivity|].
  destruct (unwritable_extension_raises odd_extension_world "scan.xyz"
              "results" sample_raster eq_refl eq_refl)
    as (Hraise & _ & _ & Hout).
  split; [exact Hraise | exact Hout].
Defined.
